(** * BlekkPro: the PMU brush module and the symmetry score

  A shallow embedding of [BlekkProPMUBrushes.js] (brush catalog, brush
  selection, stroke renderer) and of the symmetry score of
  [BlekkProFacialRecognition.js].

  Numbers.  A JavaScript number is modelled by a real number: the model is
  exact wherever the IEEE result is finite and not rounded.  A division is
  only relied upon where its divisor is shown to be non-zero, because the
  JavaScript quotient by zero ([NaN] or an infinity) has no real
  counterpart.

  Objects.  The canvas context is a mutable object shared between the
  caller and the renderer; it is modelled by an explicit drawing surface
  threaded through a state monad in which a thrown exception keeps every
  mutation made before the throw. *)

From Stdlib Require Import Reals Lra Lia List String ZArith Bool.
Import ListNotations.

Local Open Scope string_scope.
Local Open Scope R_scope.

(** ** JavaScript numbers *)

Module Js.

(** [a >= b] *)
Definition geb (a b : R) : bool := if Rge_dec a b then true else false.

(** [a < b] *)
Definition ltb (a b : R) : bool := if Rlt_dec a b then true else false.

(** [a > b] *)
Definition gtb (a b : R) : bool := if Rgt_dec a b then true else false.

(** [a !== b] on numbers *)
Definition neqb (a b : R) : bool := if Req_dec_T a b then false else true.

(** [v || d] on a possibly missing number: [undefined] and [0] are falsy. *)
Definition or_default (v : option R) (d : R) : R :=
  match v with
  | Some n => if Req_dec_T n 0 then d else n
  | None => d
  end.

(** [Math.round]: the nearest integer, halves going up. *)
Definition Math_round (v : R) : R := IZR (Int_part (v + / 2)).

Definition Math_sqrt : R -> R := sqrt.
Definition Math_abs : R -> R := Rabs.
Definition Math_max : R -> R -> R := Rmax.
Definition Math_min : R -> R -> R := Rmin.
Definition Math_cos : R -> R := cos.
Definition Math_sin : R -> R := sin.
Definition Math_PI : R := PI.

(** The names every object inherits from [Object.prototype].  On an object
    literal that has no entry of its own under such a name, [obj[name]] is
    a function (the prototype itself for ['__proto__']): a truthy value
    that is no string. *)
Definition Object_prototype : list string :=
  [ "constructor"; "hasOwnProperty"; "isPrototypeOf";
    "propertyIsEnumerable"; "toLocaleString"; "toString"; "valueOf";
    "__proto__"; "__defineGetter__"; "__defineSetter__";
    "__lookupGetter__"; "__lookupSetter__" ].

Definition inherited (name : string) : bool :=
  existsb (String.eqb name) Object_prototype.

End Js.

(** ** The drawing surface (a 2D canvas context)

    The surface records what the renderer asks of it: a property write
    stores the value written, and [stroke] and [fill] log the current path
    with the drawing state in force.  The checks a browser canvas makes on
    the values written (it ignores, for one, a line width of zero) are not
    part of the model. *)

Module Canvas.

(** A colour style.  The renderer only ever builds the template
    [rgba(r, g, b, a)]; its three colour fields are the entries of the
    colour array ([None] for an entry the array does not have). *)
Inductive Style : Type :=
| Css (s : string)
| Rgba (r g b : option R) (a : R).

(** The transient drawing state, the part that [save] and [restore]
    push and pop. *)
Record DrawState : Type := mkDrawState {
  globalCompositeOperation : string;
  globalAlpha : R;
  strokeStyle : Style;
  fillStyle : Style;
  lineWidth : R;
  lineCap : string;
  lineJoin : string;
  lineDash : list R
}.

Inductive PathCmd : Type :=
| MoveTo (x y : R)
| LineTo (x y : R)
| Arc (x y radius startAngle endAngle : R).

(** What reached the surface: the path drawn and the state it was drawn
    with. *)
Inductive Mark : Type :=
| Stroked (path : list PathCmd) (st : DrawState)
| Filled (path : list PathCmd) (st : DrawState).

Record Ctx : Type := mkCtx {
  state : DrawState;
  saved : list DrawState;
  path : list PathCmd;
  marks : list Mark
}.

Definition with_state (f : DrawState -> DrawState) (c : Ctx) : Ctx :=
  mkCtx (f (state c)) (saved c) (path c) (marks c).

Definition save (c : Ctx) : Ctx :=
  mkCtx (state c) (state c :: saved c) (path c) (marks c).

Definition restore (c : Ctx) : Ctx :=
  match saved c with
  | [] => c
  | s :: rest => mkCtx s rest (path c) (marks c)
  end.

Definition beginPath (c : Ctx) : Ctx :=
  mkCtx (state c) (saved c) [] (marks c).

Definition add_cmd (k : PathCmd) (c : Ctx) : Ctx :=
  mkCtx (state c) (saved c) (path c ++ [k]) (marks c).

Definition stroke (c : Ctx) : Ctx :=
  mkCtx (state c) (saved c) (path c) (marks c ++ [Stroked (path c) (state c)]).

Definition fill (c : Ctx) : Ctx :=
  mkCtx (state c) (saved c) (path c) (marks c ++ [Filled (path c) (state c)]).

Definition set_globalCompositeOperation (v : string) (s : DrawState) :=
  mkDrawState v (globalAlpha s) (strokeStyle s) (fillStyle s) (lineWidth s)
              (lineCap s) (lineJoin s) (lineDash s).
Definition set_globalAlpha (v : R) (s : DrawState) :=
  mkDrawState (globalCompositeOperation s) v (strokeStyle s) (fillStyle s)
              (lineWidth s) (lineCap s) (lineJoin s) (lineDash s).
Definition set_strokeStyle (v : Style) (s : DrawState) :=
  mkDrawState (globalCompositeOperation s) (globalAlpha s) v (fillStyle s)
              (lineWidth s) (lineCap s) (lineJoin s) (lineDash s).
Definition set_fillStyle (v : Style) (s : DrawState) :=
  mkDrawState (globalCompositeOperation s) (globalAlpha s) (strokeStyle s) v
              (lineWidth s) (lineCap s) (lineJoin s) (lineDash s).
Definition set_lineWidth (v : R) (s : DrawState) :=
  mkDrawState (globalCompositeOperation s) (globalAlpha s) (strokeStyle s)
              (fillStyle s) v (lineCap s) (lineJoin s) (lineDash s).
Definition set_lineCap (v : string) (s : DrawState) :=
  mkDrawState (globalCompositeOperation s) (globalAlpha s) (strokeStyle s)
              (fillStyle s) (lineWidth s) v (lineJoin s) (lineDash s).
Definition set_lineJoin (v : string) (s : DrawState) :=
  mkDrawState (globalCompositeOperation s) (globalAlpha s) (strokeStyle s)
              (fillStyle s) (lineWidth s) (lineCap s) v (lineDash s).

End Canvas.

(** ** Effects: a surface, a random source, exceptions *)

Module Eff.

(** [Math.random] reads an ambient generator: the [k]-th call returns
    [stream k]. *)
Record World : Type := mkWorld {
  canvas : Canvas.Ctx;
  stream : nat -> R;
  calls : nat
}.

Inductive Outcome (A : Type) : Type :=
| Normal (a : A)
| Thrown (e : string).
Arguments Normal {A} a.
Arguments Thrown {A} e.

(** A computation on the world.  A throw returns the world as it stands:
    what was written to the surface before stays written. *)
Definition M (A : Type) : Type := World -> Outcome A * World.

Definition ret {A} (a : A) : M A := fun w => (Normal a, w).

Definition bind {A B} (m : M A) (k : A -> M B) : M B :=
  fun w =>
    match m w with
    | (Normal a, w') => k a w'
    | (Thrown e, w') => (Thrown e, w')
    end.

Definition throw {A} (e : string) : M A := fun w => (Thrown e, w).

Definition try_catch {A} (body : M A) (handler : string -> M A) : M A :=
  fun w =>
    match body w with
    | (Normal a, w') => (Normal a, w')
    | (Thrown e, w') => handler e w'
    end.

Definition on_ctx (f : Canvas.Ctx -> Canvas.Ctx) : M unit :=
  fun w => (Normal tt, mkWorld (f (canvas w)) (stream w) (calls w)).

Definition Math_random : M R :=
  fun w => (Normal (stream w (calls w)),
            mkWorld (canvas w) (stream w) (S (calls w))).

End Eff.

Declare Scope eff_scope.
Delimit Scope eff_scope with eff.
Notation "x <- m ;; k" := (Eff.bind m (fun x => k))
(at level 61, m at next level, right associativity) : eff_scope.
Notation "m ;; k" := (Eff.bind m (fun _ => k))
(at level 61, right associativity) : eff_scope.

(** ** The brush module ([class BlekkProPMUBrushes]) *)

Module Brushes.

Import Canvas Eff.
Local Open Scope eff_scope.

Record Brush : Type := mkBrush {
  name : string;
  type : string;
  size : R;
  opacity : R;
  spacing : R;
  scatter : R;
  pressureSensitivity : R;
  subscription : string
}.

(** The selected brush: a copy of a preset with its [id] and [category]
    ([{...brush, id: brushId, category}]). *)
Record CurrentBrush : Type := mkCurrent {
  preset : Brush;
  id : string;
  category : string
}.

(** An object used as a map from names, in insertion order. *)
Definition Dict (V : Type) : Type := list (string * V).

Fixpoint lookup {V} (d : Dict V) (k : string) : option V :=
  match d with
  | [] => None
  | (k', v) :: rest => if String.eqb k k' then Some v else lookup rest k
  end.

Record t : Type := mkBrushes {
  currentBrush : option CurrentBrush;
  brushPresets : Dict (Dict Brush);
  userSubscription : string
}.

Definition standardLiner : Brush :=
  mkBrush "Standard Liner" "liner" 1 0.9 0.1 0 0.7 "free".
Definition standardShader : Brush :=
  mkBrush "Standard Shader" "shader" 3 0.8 0.15 0.1 0.8 "free".
Definition powderBrow : Brush :=
  mkBrush "Powder Brow" "shader" 5 0.6 0.2 0.3 0.5 "free".
Definition shader3RS : Brush :=
  mkBrush "3RS Shader" "specialized" 3 0.85 0.12 0.08 0.9 "pro".
Definition ombreLipOutline : Brush :=
  mkBrush "Ombre Lip Outline" "specialized" 2 0.9 0.05 0.02 0.8 "pro".
Definition microbladeNatural : Brush :=
  mkBrush "Microblade Natural" "specialized" 1 0.95 0.02 0.01 0.9 "pro".

Definition presets : Dict (Dict Brush) :=
  [ ("basic",
     [ ("standardLiner", standardLiner);
       ("standardShader", standardShader);
       ("powderBrow", powderBrow) ]);
    ("advanced",
     [ ("shader3RS", shader3RS);
       ("ombreLipOutline", ombreLipOutline);
       ("microbladeNatural", microbladeNatural) ]) ].

Definition constructor : t := mkBrushes None presets "free".

(** [setUserSubscription(level)] *)
Definition setUserSubscription (this : t) (level : string) : bool * t :=
  if negb (String.eqb level "free") && negb (String.eqb level "pro") then
    (false, this)
  else
    (true, mkBrushes (currentBrush this) (brushPresets this) level).

Record UpgradePrompt : Type := mkPrompt {
  title : string;
  message : string;
  benefits : list string
}.

Definition prompts_default : UpgradePrompt :=
  mkPrompt "Unlock Pro Features"
    "Upgrade to BlekkPro Pro to access all professional features."
    [ "All specialized PMU brushes";
      "Advanced customization options";
      "High-resolution exports";
      "Priority support" ].

Definition prompts : Dict UpgradePrompt :=
  [ ("shader3RS",
     mkPrompt "Unlock 3RS Shader Brush"
       "Upgrade to BlekkPro Pro to access professional 3RS shader brushes for perfect brow shading."
       [ "Realistic 3-needle round shader simulation";
         "Precise pigment distribution control";
         "Professional-grade results" ]);
    ("ombreLipOutline",
     mkPrompt "Unlock Ombre Lip Outline Tool"
       "Upgrade to BlekkPro Pro to access specialized ombre lip outline tools for perfect lip treatments."
       [ "Specialized lip outline brushes";
         "Gradient and feathering controls";
         "Realistic lip blush simulation" ]);
    ("microbladeNatural",
     mkPrompt "Unlock Natural Microblade Tool"
       "Upgrade to BlekkPro Pro to access natural microblade tools for realistic hair strokes."
       [ "Realistic hair stroke simulation";
         "Natural-looking results";
         "Advanced pressure sensitivity" ]);
    ("export_high_res",
     mkPrompt "Unlock High-Resolution Export"
       "Upgrade to BlekkPro Pro to export your designs in high resolution."
       [ "Professional-quality exports";
         "Print-ready resolution";
         "Lossless image quality" ]);
    ("default", prompts_default) ].

(** [getUpgradePrompt(featureId)]: [prompts[featureId] || prompts.default].
    Only the entries of [prompts] are looked up; for a name the table
    inherits ([Js.inherited]) the code returns the inherited member, which
    is no prompt and is not modelled. *)
Definition getUpgradePrompt (featureId : string) : UpgradePrompt :=
  match lookup prompts featureId with
  | Some p => p
  | None => prompts_default
  end.

(** The object [selectBrush] returns; [success] is its tag.  On a denial
    [upgradePrompt] is present only for the subscription reason. *)
Inductive SelectResult : Type :=
| Selected (brush : CurrentBrush)
| Refused (reason : string) (message : string)
          (upgradePrompt : option UpgradePrompt).

(** [selectBrush(category, brushId)].  The two existence tests are
    truthiness tests; every catalog entry is an object, hence truthy.  Only
    the catalog's own entries are looked up: names that a JavaScript object
    inherits ([Js.inherited]), such as 'constructor', are not modelled. *)
Definition selectBrush (this : t) (category brushId : string)
  : SelectResult * t :=
  match lookup (brushPresets this) category with
  | None =>
      (Refused "invalid_category"
               ("Invalid brush category: " ++ category) None, this)
  | Some group =>
      match lookup group brushId with
      | None =>
          (Refused "invalid_brush" ("Invalid brush: " ++ brushId) None, this)
      | Some brush =>
          if String.eqb (subscription brush) "pro"
             && negb (String.eqb (userSubscription this) "pro")
          then
            (Refused "subscription_required"
                     "This brush requires a Pro subscription"
                     (Some (getUpgradePrompt brushId)), this)
          else
            let cur := mkCurrent brush brushId category in
            (Selected cur,
             mkBrushes (Some cur) (brushPresets this) (userSubscription this))
      end
  end.

(** *** The rest of the catalog interface *)

(** [getCurrentBrush()] *)
Definition getCurrentBrush (this : t) : option CurrentBrush :=
  currentBrush this.

(** [{ ...obj }]: a copy of the entries of [obj]; spreading [undefined]
    gives the empty object. *)
Definition spread {V} (obj : option (Dict V)) : Dict V :=
  match obj with
  | Some d => d
  | None => []
  end.

(** [obj[key] = value]: an existing entry keeps its place, a new one goes
    last. *)
Fixpoint assign {V} (obj : Dict V) (key : string) (value : V) : Dict V :=
  match obj with
  | [] => [(key, value)]
  | (k, v) :: rest =>
      if String.eqb key k then (k, value) :: rest
      else (k, v) :: assign rest key value
  end.

(** The object [getAvailableBrushes] returns: [basic] always, and either
    [advanced] or [locked]. *)
Record Available : Type := mkAvailable {
  basic : Dict Brush;
  advanced : option (Dict Brush);
  locked : option (Dict Brush)
}.

(** [getAvailableBrushes()].  [Object.entries] of a missing [advanced]
    group throws. *)
Definition getAvailableBrushes (this : t) : Outcome Available :=
  let result_basic := spread (lookup (brushPresets this) "basic") in
  if String.eqb (userSubscription this) "pro" then
    Normal (mkAvailable result_basic
                        (Some (spread (lookup (brushPresets this) "advanced")))
                        None)
  else
    match lookup (brushPresets this) "advanced" with
    | None => Thrown "TypeError"
    | Some entries =>
        Normal (mkAvailable result_basic None
                  (Some (fold_left
                           (fun result_locked '(id, brush) =>
                              assign result_locked id brush)
                           entries [])))
    end.

(** A setting's value.  The fields of a brush hold numbers and strings; a
    value of the other kind than the field it is written to is outside the
    model. *)
Inductive JsValue : Type :=
| JsNumber (n : R)
| JsString (s : string).

Definition as_string (value : JsValue) : option string :=
  match value with
  | JsString s => Some s
  | JsNumber _ => None
  end.

Definition as_number (value : JsValue) : option R :=
  match value with
  | JsNumber n => Some n
  | JsString _ => None
  end.

(** [if (key in this.currentBrush) this.currentBrush[key] = value] for the
    ten fields a selected brush has; any other key leaves them alone.
    [None] when the value is not of the field's kind. *)
Definition set_key (cur : CurrentBrush) (key : string) (value : JsValue)
  : option CurrentBrush :=
  let b := preset cur in
  let with_preset (b' : Brush) := mkCurrent b' (id cur) (category cur) in
  if String.eqb key "name" then
    option_map (fun s => with_preset
      (mkBrush s (type b) (size b) (opacity b) (spacing b) (scatter b)
               (pressureSensitivity b) (subscription b))) (as_string value)
  else if String.eqb key "type" then
    option_map (fun s => with_preset
      (mkBrush (name b) s (size b) (opacity b) (spacing b) (scatter b)
               (pressureSensitivity b) (subscription b))) (as_string value)
  else if String.eqb key "size" then
    option_map (fun n => with_preset
      (mkBrush (name b) (type b) n (opacity b) (spacing b) (scatter b)
               (pressureSensitivity b) (subscription b))) (as_number value)
  else if String.eqb key "opacity" then
    option_map (fun n => with_preset
      (mkBrush (name b) (type b) (size b) n (spacing b) (scatter b)
               (pressureSensitivity b) (subscription b))) (as_number value)
  else if String.eqb key "spacing" then
    option_map (fun n => with_preset
      (mkBrush (name b) (type b) (size b) (opacity b) n (scatter b)
               (pressureSensitivity b) (subscription b))) (as_number value)
  else if String.eqb key "scatter" then
    option_map (fun n => with_preset
      (mkBrush (name b) (type b) (size b) (opacity b) (spacing b) n
               (pressureSensitivity b) (subscription b))) (as_number value)
  else if String.eqb key "pressureSensitivity" then
    option_map (fun n => with_preset
      (mkBrush (name b) (type b) (size b) (opacity b) (spacing b) (scatter b)
               n (subscription b))) (as_number value)
  else if String.eqb key "subscription" then
    option_map (fun s => with_preset
      (mkBrush (name b) (type b) (size b) (opacity b) (spacing b) (scatter b)
               (pressureSensitivity b) s)) (as_string value)
  else if String.eqb key "id" then
    option_map (fun s => mkCurrent b s (category cur)) (as_string value)
  else if String.eqb key "category" then
    option_map (fun s => mkCurrent b (id cur) s) (as_string value)
  else Some cur.

(** [Object.entries(settings).forEach(...)], in the order of the entries. *)
Fixpoint apply_settings (cur : CurrentBrush)
  (settings : list (string * JsValue)) : option CurrentBrush :=
  match settings with
  | [] => Some cur
  | (key, value) :: rest =>
      match set_key cur key value with
      | Some cur' => apply_settings cur' rest
      | None => None
      end
  end.

(** [updateCurrentBrushSettings(settings)] *)
Definition updateCurrentBrushSettings (this : t)
  (settings : list (string * JsValue)) : option (bool * t) :=
  match currentBrush this with
  | None => Some (false, this)
  | Some cur =>
      option_map
        (fun cur' =>
           (true,
            mkBrushes (Some cur') (brushPresets this) (userSubscription this)))
        (apply_settings cur settings)
  end.

(** The table of [isFeatureAvailable]: feature to required subscription. *)
Definition features : Dict string :=
  [ ("basic_brushes", "free");
    ("shader_brushes", "free");
    ("liner_brushes", "free");
    ("specialized_brushes", "pro");
    ("ombre_lip", "pro");
    ("microblade", "pro");
    ("powder_brow", "free");
    ("needle_configuration", "pro");
    ("export_high_res", "pro") ].

(** [isFeatureAvailable(featureId)].  [features[featureId]] finds the
    entries of the table and, failing those, what the table inherits under
    the name: a truthy value that is not the string 'free'. *)
Definition isFeatureAvailable (this : t) (featureId : string) : bool :=
  match lookup features featureId with
  | None =>
      if Js.inherited featureId then String.eqb (userSubscription this) "pro"
      else false
  | Some requiredSubscription =>
      if String.eqb requiredSubscription "free" then true
      else String.eqb (userSubscription this) "pro"
  end.

(** *** The stroke renderer *)

(** An input sample [{x, y, pressure}]; [pressure] may be absent. *)
Record Point : Type := mkPoint {
  x : R;
  y : R;
  pressure : option R
}.

Definition set (f : DrawState -> DrawState) : M unit := on_ctx (with_state f).

(** Reading [points[0].x] on an empty array. *)
Definition TypeError : string := "TypeError".

(** [_drawDot(ctx, x, y, size, color, alpha)] *)
Definition _drawDot (x y size : R) (color : Style) (alpha : R) : M unit :=
  on_ctx beginPath ;;
  set (set_globalAlpha alpha) ;;
  set (set_fillStyle color) ;;
  on_ctx (add_cmd (Arc x y (size / 2) 0 (Js.Math_PI * 2))) ;;
  on_ctx fill.

(** [_drawTripleDot(ctx, x, y, size, color, alpha)] *)
Definition _drawTripleDot (x y size : R) (color : Style) (alpha : R)
  : M unit :=
  _drawDot x y size color alpha ;;
  let offset := size * 0.6 in
  rnd <- Math_random ;;
  let angle := rnd * Js.Math_PI * 2 in
  let x1 := x + Js.Math_cos angle * offset in
  let y1 := y + Js.Math_sin angle * offset in
  _drawDot x1 y1 (size * 0.8) color (alpha * 0.9) ;;
  let x2 := x + Js.Math_cos (angle + Js.Math_PI * 2 / 3) * offset in
  let y2 := y + Js.Math_sin (angle + Js.Math_PI * 2 / 3) * offset in
  _drawDot x2 y2 (size * 0.8) color (alpha * 0.9).

(** The loop of [_applyLinerBrush], from [i = 1]. *)
Fixpoint _applyLinerBrush_loop (size pressureSensitivity : R)
  (rest : list Point) : M unit :=
  match rest with
  | [] => ret tt
  | point :: rest' =>
      let pressure := Js.or_default (pressure point) 1 in
      let adjustedSize :=
        size * (1 + (pressure - 0.5) * pressureSensitivity) in
      set (set_lineWidth adjustedSize) ;;
      on_ctx (add_cmd (LineTo (x point) (y point))) ;;
      _applyLinerBrush_loop size pressureSensitivity rest'
  end.

Definition _applyLinerBrush (points : list Point) (colorStr : Style)
  (size opacity spacing scatter pressureSensitivity : R) : M unit :=
  on_ctx beginPath ;;
  set (set_strokeStyle colorStr) ;;
  set (set_lineWidth size) ;;
  set (set_lineCap "round") ;;
  set (set_lineJoin "round") ;;
  set (set_globalAlpha opacity) ;;
  match points with
  | [] => throw TypeError
  | p0 :: rest =>
      on_ctx (add_cmd (MoveTo (x p0) (y p0))) ;;
      _applyLinerBrush_loop size pressureSensitivity rest ;;
      on_ctx stroke
  end.

(** The loop of [_applyShaderBrush], from [i = 1]; [lastX] and [lastY] are
    the loop's two mutable locals. *)
Fixpoint _applyShaderBrush_loop (colorStr : Style)
  (size opacity scatter pressureSensitivity minDistance lastX lastY : R)
  (rest : list Point) : M unit :=
  match rest with
  | [] => ret tt
  | point :: rest' =>
      let pressure := Js.or_default (pressure point) 1 in
      let dx := x point - lastX in
      let dy := y point - lastY in
      let distance := Js.Math_sqrt (dx * dx + dy * dy) in
      if Js.geb distance minDistance then
        let adjustedSize :=
          size * (1 + (pressure - 0.5) * pressureSensitivity) in
        r1 <- Math_random ;;
        let scatterX := (r1 - 0.5) * scatter * size * 2 in
        r2 <- Math_random ;;
        let scatterY := (r2 - 0.5) * scatter * size * 2 in
        _drawDot (x point + scatterX) (y point + scatterY) adjustedSize
                 colorStr (opacity * pressure) ;;
        _applyShaderBrush_loop colorStr size opacity scatter
          pressureSensitivity minDistance (x point) (y point) rest'
      else
        _applyShaderBrush_loop colorStr size opacity scatter
          pressureSensitivity minDistance lastX lastY rest'
  end.

Definition _applyShaderBrush (points : list Point) (colorStr : Style)
  (size opacity spacing scatter pressureSensitivity : R) : M unit :=
  let minDistance := size * spacing in
  match points with
  | [] => throw TypeError
  | p0 :: rest =>
      let lastX := x p0 in
      let lastY := y p0 in
      _drawDot lastX lastY size colorStr opacity ;;
      _applyShaderBrush_loop colorStr size opacity scatter
        pressureSensitivity minDistance lastX lastY rest
  end.

(** The loop of [_apply3RSShader], from [i = 1]. *)
Fixpoint _apply3RSShader_loop (colorStr : Style)
  (size opacity scatter pressureSensitivity minDistance lastX lastY : R)
  (rest : list Point) : M unit :=
  match rest with
  | [] => ret tt
  | point :: rest' =>
      let pressure := Js.or_default (pressure point) 1 in
      let dx := x point - lastX in
      let dy := y point - lastY in
      let distance := Js.Math_sqrt (dx * dx + dy * dy) in
      if Js.geb distance minDistance then
        let adjustedSize :=
          size * (1 + (pressure - 0.5) * pressureSensitivity) in
        r1 <- Math_random ;;
        let scatterX := (r1 - 0.5) * scatter * size in
        r2 <- Math_random ;;
        let scatterY := (r2 - 0.5) * scatter * size in
        _drawTripleDot (x point + scatterX) (y point + scatterY)
                       adjustedSize colorStr (opacity * pressure) ;;
        _apply3RSShader_loop colorStr size opacity scatter
          pressureSensitivity minDistance (x point) (y point) rest'
      else
        _apply3RSShader_loop colorStr size opacity scatter
          pressureSensitivity minDistance lastX lastY rest'
  end.

Definition _apply3RSShader (points : list Point) (colorStr : Style)
  (size opacity spacing scatter pressureSensitivity : R) : M unit :=
  let minDistance := size * spacing in
  match points with
  | [] => throw TypeError
  | p0 :: rest =>
      let lastX := x p0 in
      let lastY := y p0 in
      _drawTripleDot lastX lastY size colorStr opacity ;;
      _apply3RSShader_loop colorStr size opacity scatter
        pressureSensitivity minDistance lastX lastY rest
  end.

(** The three colour fields recovered from [colorStr] by
    [replace('rgba(', '').replace(')', '').split(',')]. *)
Definition baseColor (colorStr : Style)
  : option R * option R * option R :=
  match colorStr with
  | Rgba r g b _ => (r, g, b)
  | Css _ => (None, None, None)
  end.

(** The loop of [_applyOmbreLipOutline]; [i] is the loop index, [length]
    is [points.length]. *)
Fixpoint _applyOmbreLipOutline_loop (r g b : option R)
  (size opacity pressureSensitivity : R) (length i : nat)
  (rest : list Point) : M unit :=
  match rest with
  | [] => ret tt
  | point :: rest' =>
      let pressure := Js.or_default (pressure point) 1 in
      let adjustedSize :=
        size * (1 + (pressure - 0.5) * pressureSensitivity) in
      set (set_lineWidth adjustedSize) ;;
      let progress := INR i / (INR length - 1) in
      let adjustedOpacity := opacity * (1 - progress * 0.3) * pressure in
      set (set_globalAlpha adjustedOpacity) ;;
      set (set_strokeStyle (Rgba r g b adjustedOpacity)) ;;
      on_ctx (add_cmd (LineTo (x point) (y point))) ;;
      on_ctx stroke ;;
      (if Js.ltb (INR i) (INR length - 1) then
         on_ctx beginPath ;;
         on_ctx (add_cmd (MoveTo (x point) (y point)))
       else ret tt) ;;
      _applyOmbreLipOutline_loop r g b size opacity pressureSensitivity
        length (S i) rest'
  end.

Definition _applyOmbreLipOutline (points : list Point) (colorStr : Style)
  (size opacity spacing pressureSensitivity : R) : M unit :=
  match points with
  | [] | [_] => ret tt
  | p0 :: rest =>
      let '(r, g, b) := baseColor colorStr in
      on_ctx beginPath ;;
      set (set_strokeStyle colorStr) ;;
      set (set_lineWidth size) ;;
      set (set_lineCap "round") ;;
      set (set_lineJoin "round") ;;
      on_ctx (add_cmd (MoveTo (x p0) (y p0))) ;;
      _applyOmbreLipOutline_loop r g b size opacity pressureSensitivity
        (List.length points) 1 rest
  end.

(** The first loop of [_applyMicrobladeNatural]: [totalLength], summed
    from [i = 1] with [prev = points[i-1]]. *)
Fixpoint totalLength_loop (totalLength : R) (prev : Point)
  (rest : list Point) : R :=
  match rest with
  | [] => totalLength
  | point :: rest' =>
      let dx := x point - x prev in
      let dy := y point - y prev in
      totalLength_loop (totalLength + Js.Math_sqrt (dx * dx + dy * dy))
                       point rest'
  end.

(** The second loop of [_applyMicrobladeNatural]. *)
Fixpoint _applyMicrobladeNatural_loop
  (size pressureSensitivity totalLength currentLength : R)
  (prevPoint : Point) (rest : list Point) : M unit :=
  match rest with
  | [] => ret tt
  | point :: rest' =>
      let pressure := Js.or_default (pressure point) 1 in
      let dx := x point - x prevPoint in
      let dy := y point - y prevPoint in
      let segmentLength := Js.Math_sqrt (dx * dx + dy * dy) in
      let currentLength := currentLength + segmentLength in
      let progress := currentLength / totalLength in
      let taperFactor := 4 * progress * (1 - progress) in
      let adjustedSize :=
        size * taperFactor * (1 + (pressure - 0.5) * pressureSensitivity) in
      set (set_lineWidth adjustedSize) ;;
      on_ctx (add_cmd (LineTo (x point) (y point))) ;;
      _applyMicrobladeNatural_loop size pressureSensitivity totalLength
        currentLength point rest'
  end.

Definition _applyMicrobladeNatural (points : list Point) (colorStr : Style)
  (size opacity spacing pressureSensitivity : R) : M unit :=
  match points with
  | [] | [_] => ret tt
  | p0 :: rest =>
      on_ctx beginPath ;;
      set (set_strokeStyle colorStr) ;;
      set (set_lineCap "round") ;;
      set (set_lineJoin "round") ;;
      set (set_globalAlpha opacity) ;;
      let totalLength := totalLength_loop 0 p0 rest in
      on_ctx (add_cmd (MoveTo (x p0) (y p0))) ;;
      _applyMicrobladeNatural_loop size pressureSensitivity totalLength 0
        p0 rest ;;
      on_ctx stroke
  end.

(** The loop of [_applyDefaultBrush], from [i = 1]. *)
Fixpoint _applyDefaultBrush_loop (rest : list Point) : M unit :=
  match rest with
  | [] => ret tt
  | point :: rest' =>
      on_ctx (add_cmd (LineTo (x point) (y point))) ;;
      _applyDefaultBrush_loop rest'
  end.

Definition _applyDefaultBrush (points : list Point) (colorStr : Style)
  (size opacity : R) : M unit :=
  on_ctx beginPath ;;
  set (set_strokeStyle colorStr) ;;
  set (set_lineWidth size) ;;
  set (set_lineCap "round") ;;
  set (set_lineJoin "round") ;;
  set (set_globalAlpha opacity) ;;
  match points with
  | [] => throw TypeError
  | p0 :: rest =>
      on_ctx (add_cmd (MoveTo (x p0) (y p0))) ;;
      _applyDefaultBrush_loop rest ;;
      on_ctx stroke
  end.

(** [_applySpecializedBrush]: the switch on [this.currentBrush.id]. *)
Definition _applySpecializedBrush (brushId : string) (points : list Point)
  (colorStr : Style) (size opacity spacing scatter pressureSensitivity : R)
  : M unit :=
  if String.eqb brushId "shader3RS" then
    _apply3RSShader points colorStr size opacity spacing scatter
                    pressureSensitivity
  else if String.eqb brushId "ombreLipOutline" then
    _applyOmbreLipOutline points colorStr size opacity spacing
                          pressureSensitivity
  else if String.eqb brushId "microbladeNatural" then
    _applyMicrobladeNatural points colorStr size opacity spacing
                            pressureSensitivity
  else
    _applyShaderBrush points colorStr size opacity spacing scatter
                      pressureSensitivity.

(** The template [rgba(${color[0]}, ${color[1]}, ${color[2]}, 1)]; indexing
    a [color] that is [null] or [undefined] throws. *)
Definition colorStr_of (color : option (list R)) : M Style :=
  match color with
  | None => throw TypeError
  | Some c => ret (Rgba (nth_error c 0) (nth_error c 1) (nth_error c 2) 1)
  end.

(** The [try] block of [applyBrushStroke] and its [catch]. *)
Definition applyBrushStroke_body (cur : CurrentBrush) (points : list Point)
  (color : option (list R)) : M bool :=
  try_catch
    (on_ctx save ;;
     set (set_globalCompositeOperation "source-over") ;;
     colorStr <- colorStr_of color ;;
     let b := preset cur in
     (if String.eqb (type b) "liner" then
        _applyLinerBrush points colorStr (size b) (opacity b) (spacing b)
                         (scatter b) (pressureSensitivity b)
      else if String.eqb (type b) "shader" then
        _applyShaderBrush points colorStr (size b) (opacity b) (spacing b)
                          (scatter b) (pressureSensitivity b)
      else if String.eqb (type b) "specialized" then
        _applySpecializedBrush (id cur) points colorStr (size b) (opacity b)
                               (spacing b) (scatter b) (pressureSensitivity b)
      else
        _applyDefaultBrush points colorStr (size b) (opacity b)) ;;
     on_ctx restore ;;
     ret true)
    (fun _ => ret false).

(** [applyBrushStroke(ctx, points, color)].  [ctx] and [points] may be
    [null]; the surface and the position in the random stream are returned
    as the call leaves them. *)
Definition applyBrushStroke (this : t) (ctx : option Ctx)
  (points : option (list Point)) (color : option (list R))
  (random : nat -> R) (calls : nat) : bool * option Ctx * nat :=
  match ctx, points, currentBrush this with
  | Some c, Some (p0 :: rest), Some cur =>
      match applyBrushStroke_body cur (p0 :: rest) color
              (mkWorld c random calls) with
      | (Normal r, w) => (r, Some (canvas w), Eff.calls w)
      | (Thrown _, w) => (false, Some (canvas w), Eff.calls w)
      end
  | _, _, _ => (false, ctx, calls)
  end.

End Brushes.

(** ** The symmetry score ([class BlekkProFacialRecognition]) *)

Module FacialRecognition.

(** A landmark [{x, y, z}] as [extractPMULandmarks] builds it. *)
Record Landmark : Type := mkLandmark {
  x : R;
  y : R;
  z : R
}.

(** A plane point [{x, y}], the result of [calculateCentroid]. *)
Record Vec2 : Type := mkVec2 {
  vx : R;
  vy : R
}.

Record Line : Type := mkLine {
  x1 : R;
  y1 : R;
  x2 : R;
  y2 : R
}.

(** [landmarks.symmetryReferences]: a reference point is present only if
    the keypoint set had it. *)
Record SymmetryReferences : Type := mkRefs {
  midForehead : option Landmark;
  noseTip : option Landmark;
  midChin : option Landmark;
  leftEyeCenter : option Landmark;
  rightEyeCenter : option Landmark
}.

(** The landmarks object; [symmetryReferences] itself may be missing, and
    reading a property of it then throws. *)
Record Landmarks : Type := mkLandmarks {
  browLeft : list Landmark;
  browRight : list Landmark;
  lipOuter : list Landmark;
  lipInner : list Landmark;
  faceContour : list Landmark;
  symmetryReferences : option SymmetryReferences
}.

(** [calculateCentroid(points)] *)
Definition calculateCentroid (points : list Landmark) : Vec2 :=
  let sum :=
    fold_left (fun acc point => mkVec2 (vx acc + x point) (vy acc + y point))
              points (mkVec2 0 0) in
  mkVec2 (vx sum / INR (List.length points))
         (vy sum / INR (List.length points)).

(** [distanceToLine(point, line)] *)
Definition distanceToLine (point : Vec2) (line : Line) : R :=
  let A := vx point - x1 line in
  let B := vy point - y1 line in
  let C := x2 line - x1 line in
  let D := y2 line - y1 line in
  let dot := A * C + B * D in
  let lenSq := C * C + D * D in
  let param := if Js.neqb lenSq 0 then dot / lenSq else -1 in
  let '(xx, yy) :=
    if Js.ltb param 0 then (x1 line, y1 line)
    else if Js.gtb param 1 then (x2 line, y2 line)
    else (x1 line + param * C, y1 line + param * D) in
  let dx := vx point - xx in
  let dy := vy point - yy in
  Js.Math_sqrt (dx * dx + dy * dy).

(** The [try] block of [calculateSymmetryScore]; [None] stands for a
    thrown exception. *)
Definition calculateSymmetryScore_try (landmarks : Landmarks) : option R :=
  match symmetryReferences landmarks with
  | None => None
  | Some refs =>
      match midForehead refs, noseTip refs, midChin refs with
      | Some forehead, Some _, Some chin =>
          let midline :=
            mkLine (x forehead) (y forehead) (x chin) (y chin) in
          let totalDeviation := 0 in
          let pointCount := 0%nat in
          let '(totalDeviation, pointCount) :=
            if (0 <? List.length (browLeft landmarks))%nat
               && (0 <? List.length (browRight landmarks))%nat
            then
              let leftBrowCenter := calculateCentroid (browLeft landmarks) in
              let rightBrowCenter :=
                calculateCentroid (browRight landmarks) in
              let leftDist := distanceToLine leftBrowCenter midline in
              let rightDist := distanceToLine rightBrowCenter midline in
              (totalDeviation + Js.Math_abs (leftDist - rightDist),
               S pointCount)
            else (totalDeviation, pointCount) in
          let '(totalDeviation, pointCount) :=
            if (0 <? List.length (lipOuter landmarks))%nat then
              let lipCenter := calculateCentroid (lipOuter landmarks) in
              let lipDeviation := distanceToLine lipCenter midline in
              (totalDeviation + lipDeviation, S pointCount)
            else (totalDeviation, pointCount) in
          if Nat.eqb pointCount 0 then Some 80
          else
            let avgDeviation := totalDeviation / INR pointCount in
            let maxDeviation := 20 in
            let score :=
              Js.Math_max 0
                (Js.Math_min 100 (100 - avgDeviation / maxDeviation * 100)) in
            Some (Js.Math_round score)
      | _, _, _ => Some 80
      end
  end.

(** [calculateSymmetryScore(landmarks)]: the [catch] returns the default. *)
Definition calculateSymmetryScore (landmarks : Landmarks) : R :=
  match calculateSymmetryScore_try landmarks with
  | Some score => score
  | None => 80
  end.

(** A keypoint of the detected face; [z] may be missing. *)
Record Keypoint : Type := mkKeypoint {
  kx : R;
  ky : R;
  kz : option R
}.

(** The detection result as far as [extractPMULandmarks] reads it. *)
Record Face : Type := mkFace {
  keypoints : list Keypoint
}.

(** [this.keyLandmarks] *)
Definition keyLandmarks_browLeft : list nat :=
  [336; 296; 334; 293; 300; 276; 283; 282; 295; 285]%nat.
Definition keyLandmarks_browRight : list nat :=
  [107; 66; 105; 63; 70; 46; 53; 52; 65; 55]%nat.
Definition keyLandmarks_lipOuter : list nat :=
  [61; 185; 40; 39; 37; 0; 267; 269; 270; 409; 291; 375; 321; 405; 314; 17;
   84; 181; 91; 146]%nat.
Definition keyLandmarks_lipInner : list nat :=
  [78; 191; 80; 81; 82; 13; 312; 311; 310; 415; 308; 324; 318; 402; 317; 14;
   87; 178; 88; 95]%nat.
Definition keyLandmarks_faceContour : list nat :=
  [10; 338; 297; 332; 284; 251; 389; 356; 454; 323; 361; 288; 397; 365; 379;
   378; 400; 377; 152; 148; 176; 149; 150; 136; 172; 58; 132; 93; 234; 127;
   162; 21; 54; 103; 67; 109]%nat.

(** [this.symmetryPoints] *)
Definition symmetryPoints_midForehead : nat := 151.
Definition symmetryPoints_noseTip : nat := 1.
Definition symmetryPoints_midChin : nat := 199.
Definition symmetryPoints_leftEyeCenter : nat := 468.
Definition symmetryPoints_rightEyeCenter : nat := 473.

(** [{ x: point.x, y: point.y, z: point.z || 0 }] *)
Definition landmark_of (point : Keypoint) : Landmark :=
  mkLandmark (kx point) (ky point) (Js.or_default (kz point) 0).

(** [.filter(point => point !== null)] *)
Fixpoint without_null {A : Type} (l : list (option A)) : list A :=
  match l with
  | [] => []
  | Some a :: rest => a :: without_null rest
  | None :: rest => without_null rest
  end.

(** [indices.map(index => { const point = keypoints[index];
    return point ? {...} : null; }).filter(point => point !== null)] *)
Definition extract_group (keypoints : list Keypoint) (indices : list nat)
  : list Landmark :=
  without_null
    (map (fun index => option_map landmark_of (nth_error keypoints index))
         indices).

(** [extractPMULandmarks(face)] *)
Definition extractPMULandmarks (face : Face) : Landmarks :=
  let keypoints := keypoints face in
  let reference index := option_map landmark_of (nth_error keypoints index) in
  mkLandmarks
    (extract_group keypoints keyLandmarks_browLeft)
    (extract_group keypoints keyLandmarks_browRight)
    (extract_group keypoints keyLandmarks_lipOuter)
    (extract_group keypoints keyLandmarks_lipInner)
    (extract_group keypoints keyLandmarks_faceContour)
    (Some (mkRefs (reference symmetryPoints_midForehead)
                  (reference symmetryPoints_noseTip)
                  (reference symmetryPoints_midChin)
                  (reference symmetryPoints_leftEyeCenter)
                  (reference symmetryPoints_rightEyeCenter))).

(** The overlay canvas element as [drawSymmetryGuide] reads it:
    [getContext('2d')], which may give [null], and its size. *)
Record CanvasElement : Type := mkCanvasElement {
  context2d : option Canvas.Ctx;
  width : R;
  height : R
}.

(** [ctx.setLineDash(segments)] *)
Definition setLineDash (segments : list R) (c : Canvas.Ctx) : Canvas.Ctx :=
  Canvas.with_state
    (fun s =>
       Canvas.mkDrawState
         (Canvas.globalCompositeOperation s) (Canvas.globalAlpha s)
         (Canvas.strokeStyle s) (Canvas.fillStyle s) (Canvas.lineWidth s)
         (Canvas.lineCap s) (Canvas.lineJoin s) segments)
    c.

(** [ctx.clearRect(0, 0, canvas.width, canvas.height)]: the rectangle is
    the whole canvas, so every mark made so far is erased. *)
Definition clearRect_all (c : Canvas.Ctx) : Canvas.Ctx :=
  Canvas.mkCtx (Canvas.state c) (Canvas.saved c) (Canvas.path c) [].

(** The local function [drawHorizontalGuide(y, dashPattern = [5, 5])]. *)
Definition drawHorizontalGuide (canvas_width y : R) (dashPattern : list R)
  (c : Canvas.Ctx) : Canvas.Ctx :=
  let c := Canvas.beginPath c in
  let c := Canvas.add_cmd (Canvas.MoveTo 0 y) c in
  let c := Canvas.add_cmd (Canvas.LineTo canvas_width y) c in
  let c :=
    Canvas.with_state
      (Canvas.set_strokeStyle (Canvas.Css "rgba(0, 120, 255, 0.5)")) c in
  let c := setLineDash dashPattern c in
  let c := Canvas.stroke c in
  setLineDash [] c.

(** The local function [drawLandmarks(points, color)]: [points.forEach]. *)
Definition drawLandmarks (points : list Landmark) (color : string)
  (c : Canvas.Ctx) : Canvas.Ctx :=
  fold_left
    (fun c point =>
       let c := Canvas.beginPath c in
       let c :=
         Canvas.add_cmd (Canvas.Arc (x point) (y point) 2 0 (2 * Js.Math_PI))
                        c in
       let c :=
         Canvas.with_state (Canvas.set_fillStyle (Canvas.Css color)) c in
       Canvas.fill c)
    points c.

(** The [try] block of [drawSymmetryGuide], run on the context; a throw
    hands the context back as it stands. *)
Definition drawSymmetryGuide_try (landmarks : Landmarks)
  (canvas_width canvas_height : R) (c : Canvas.Ctx)
  : Eff.Outcome bool * Canvas.Ctx :=
  match symmetryReferences landmarks with
  | None => (Eff.Thrown "TypeError", c)
  | Some refs =>
      match midForehead refs, midChin refs with
      | Some forehead, Some chin =>
          let c := clearRect_all c in
          let c := Canvas.beginPath c in
          let c := Canvas.add_cmd (Canvas.MoveTo (x forehead) (y forehead)) c in
          let c := Canvas.add_cmd (Canvas.LineTo (x chin) (y chin)) c in
          let c :=
            Canvas.with_state
              (Canvas.set_strokeStyle (Canvas.Css "rgba(0, 120, 255, 0.7)"))
              c in
          let c := Canvas.with_state (Canvas.set_lineWidth 1) c in
          let c := Canvas.stroke c in
          let c :=
            if (0 <? List.length (browLeft landmarks))%nat
               && (0 <? List.length (browRight landmarks))%nat
            then
              let leftBrowCenter := calculateCentroid (browLeft landmarks) in
              let rightBrowCenter :=
                calculateCentroid (browRight landmarks) in
              let browY := (vy leftBrowCenter + vy rightBrowCenter) / 2 in
              drawHorizontalGuide canvas_width browY [5; 5] c
            else c in
          let c :=
            match noseTip refs with
            | Some nose => drawHorizontalGuide canvas_width (y nose) [5; 5] c
            | None => c
            end in
          let c :=
            if (0 <? List.length (lipOuter landmarks))%nat then
              let lipCenter := calculateCentroid (lipOuter landmarks) in
              drawHorizontalGuide canvas_width (vy lipCenter) [5; 5] c
            else c in
          let c :=
            drawLandmarks (browLeft landmarks) "rgba(0, 255, 0, 0.7)" c in
          let c :=
            drawLandmarks (browRight landmarks) "rgba(0, 255, 0, 0.7)" c in
          let c :=
            drawLandmarks (lipOuter landmarks) "rgba(255, 0, 128, 0.7)" c in
          (Eff.Normal true, c)
      | _, _ => (Eff.Normal false, c)
      end
  end.

(** [drawSymmetryGuide(landmarks, canvas)]; the canvas is returned with its
    context as the call leaves it. *)
Definition drawSymmetryGuide (landmarks : option Landmarks)
  (canvas : option CanvasElement) : bool * option CanvasElement :=
  match landmarks, canvas with
  | Some l, Some element =>
      match context2d element with
      | None => (false, canvas)
      | Some ctx =>
          let '(outcome, ctx') :=
            drawSymmetryGuide_try l (width element) (height element) ctx in
          (match outcome with
           | Eff.Normal result => result
           | Eff.Thrown _ => false
           end,
           Some (mkCanvasElement (Some ctx') (width element)
                                 (height element)))
      end
  | _, _ => (false, canvas)
  end.

End FacialRecognition.

(** ** Observations on a rendered surface, and the words of the
    specification *)

Module Observe.

Import Canvas Eff Brushes.
Local Open Scope list_scope.

(** A filled circular dab: centre, radius and the alpha it was filled
    with. *)
Record Dab : Type := mkDab {
  cx : R;
  cy : R;
  radius : R;
  alpha : R
}.

Definition dab_of (m : Mark) : list Dab :=
  match m with
  | Filled [Arc x y r _ _] st => [mkDab x y r (globalAlpha st)]
  | _ => []
  end.

(** The dabs on a surface, in the order they were filled. *)
Definition dabs (c : Ctx) : list Dab := flat_map dab_of (marks c).

(** The surface a computation leaves behind. *)
Definition surface_after {A} (m : M A) (w : World) : Ctx := canvas (snd (m w)).

(** Euclidean distance between two samples, as the stamping loops compute
    it. *)
Definition distance (a b : Point) : R :=
  Js.Math_sqrt ((x b - x a) * (x b - x a) + (y b - y a) * (y b - y a)).

(** The pressure the loops use for a sample: [point.pressure || 1]. *)
Definition pressure_of (p : Point) : R := Js.or_default (pressure p) 1.

(** The pressure formula shared by the families. *)
Definition pressureFormula (pressureSensitivity pressure : R) : R :=
  1 + (pressure - 0.5) * pressureSensitivity.

(** The stamping cadence in the words of the specification: keep the last
    stamped position, starting at the first point; a later point is stamped
    exactly when its distance from the last stamped position is at least the
    threshold, and the point itself, not the jittered dab centre, becomes the
    last stamped position. *)
Fixpoint stamped (threshold : R) (last : Point) (rest : list Point)
  : list Point :=
  match rest with
  | [] => []
  | p :: rest' =>
      if Js.geb (distance last p) threshold
      then p :: stamped threshold p rest'
      else stamped threshold last rest'
  end.

(** The dabs of the Shader family for a list of stamped points: the [k]-th
    and [k+1]-th random numbers displace the dab. *)
Fixpoint shader_dabs (stream : nat -> R) (k : nat)
  (size opacity scatter pressureSensitivity : R) (ps : list Point)
  : list Dab :=
  match ps with
  | [] => []
  | p :: ps' =>
      mkDab (x p + (stream k - 0.5) * scatter * size * 2)
            (y p + (stream (S k) - 0.5) * scatter * size * 2)
            (size * pressureFormula pressureSensitivity (pressure_of p) / 2)
            (opacity * pressure_of p)
      :: shader_dabs stream (S (S k)) size opacity scatter
           pressureSensitivity ps'
  end.

(** The three dabs of one triple stamp centred at [(x, y)], the satellites
    placed with the random number [rnd]. *)
Definition triple (x y size alpha rnd : R) : list Dab :=
  let offset := size * 0.6 in
  let angle := rnd * PI * 2 in
  [ mkDab x y (size / 2) alpha;
    mkDab (x + cos angle * offset) (y + sin angle * offset)
          (size * 0.8 / 2) (alpha * 0.9);
    mkDab (x + cos (angle + PI * 2 / 3) * offset)
          (y + sin (angle + PI * 2 / 3) * offset)
          (size * 0.8 / 2) (alpha * 0.9) ].

(** The dabs of the triple-point variant for a list of stamped points:
    three random numbers per stamp. *)
Fixpoint triple_dabs (stream : nat -> R) (k : nat)
  (size opacity scatter pressureSensitivity : R) (ps : list Point)
  : list Dab :=
  match ps with
  | [] => []
  | p :: ps' =>
      triple (x p + (stream k - 0.5) * scatter * size)
             (y p + (stream (S k) - 0.5) * scatter * size)
             (size * pressureFormula pressureSensitivity (pressure_of p))
             (opacity * pressure_of p)
             (stream (S (S k)))
      ++ triple_dabs stream (S (S (S k))) size opacity scatter
           pressureSensitivity ps'
  end.

(** The centre dabs of a sequence of triple stamps. *)
Fixpoint centres (ds : list Dab) : list Dab :=
  match ds with
  | c :: _ :: _ :: ds' => c :: centres ds'
  | _ => []
  end.

(** [w'] is [w] after a run that filled the dabs [ds], left no other mark
    on the surface and called [Math.random] [n] times, the stack of saved
    states untouched. *)
Definition drew (w w' : World) (ds : list Dab) (n : nat) : Prop :=
  dabs (canvas w') = dabs (canvas w) ++ ds
  /\ List.length (marks (canvas w'))
     = (List.length (marks (canvas w)) + List.length ds)%nat
  /\ saved (canvas w') = saved (canvas w)
  /\ stream w' = stream w
  /\ calls w' = (calls w + n)%nat.

(** A dab lies within [bound] of a sample on each axis. *)
Definition within (bound : R) (p : Point) (d : Dab) : Prop :=
  Rabs (cx d - x p) <= bound /\ Rabs (cy d - y p) <= bound.

(** The number of dabs a Shader render adds to the surface. *)
Definition stampCount (points : list Point) (colorStr : Style)
  (size opacity spacing scatter pressureSensitivity : R) (w : World) : nat :=
  (List.length
     (dabs (surface_after
              (_applyShaderBrush points colorStr size opacity spacing scatter
                                 pressureSensitivity) w))
   - List.length (dabs (canvas w)))%nat.

(** A stroke that never doubles back: from any sample, and from any sample
    after it, a still later sample is at least as far from the earlier of
    the two.  A straight path walked in one direction is of this kind. *)
Fixpoint leads (p : Point) (rest : list Point) : Prop :=
  match rest with
  | [] => True
  | q :: rest' =>
      Forall (fun r => distance q r <= distance p r) rest' /\ leads p rest'
  end.

Fixpoint advancing (points : list Point) : Prop :=
  match points with
  | [] => True
  | p :: rest => leads p rest /\ advancing rest
  end.

(** A straight horizontal path walked from left to right. *)
Fixpoint rightward (p : Point) (rest : list Point) : Prop :=
  match rest with
  | [] => True
  | q :: rest' => y q = y p /\ x p <= x q /\ rightward q rest'
  end.

(** The alpha each stroked mark was drawn with. *)
Definition stroke_alpha (m : Mark) : list R :=
  match m with
  | Stroked _ st => [globalAlpha st]
  | Filled _ _ => []
  end.

Definition stroke_alphas (c : Ctx) : list R := flat_map stroke_alpha (marks c).

(** The alphas of the segments the gradient outline draws for the samples
    [rest], the first of them being sample number [i] of [length]. *)
Fixpoint ombre_alphas (opacity : R) (length i : nat) (rest : list Point)
  : list R :=
  match rest with
  | [] => []
  | p :: rest' =>
      opacity * (1 - INR i / (INR length - 1) * 0.3) * pressure_of p
      :: ombre_alphas opacity length (S i) rest'
  end.

(** The plain path of the default fallback: one move and a line to every
    later sample. *)
Definition plain_path (points : list Point) : list PathCmd :=
  match points with
  | [] => []
  | p0 :: rest => MoveTo (x p0) (y p0) :: map (fun p => LineTo (x p) (y p)) rest
  end.

(** The selected brush with its family replaced by [family]. *)
Definition with_type (family : string) (cur : CurrentBrush) : CurrentBrush :=
  let b := preset cur in
  mkCurrent (mkBrush (name b) family (size b) (opacity b) (spacing b)
                     (scatter b) (pressureSensitivity b) (subscription b))
            (id cur) (category cur).

(** The module with [cur] as its current brush. *)
Definition holding (this : t) (cur : CurrentBrush) : t :=
  mkBrushes (Some cur) (brushPresets this) (userSubscription this).


(** The line width in force on the surface once the tapered loop has
    handled the samples up to the [k]-th. *)
Definition microblade_width (size pressureSensitivity : R) (p0 : Point)
  (rest : list Point) (k : nat) (w : World) : R :=
  lineWidth
    (state
       (surface_after
          (_applyMicrobladeNatural_loop size pressureSensitivity
             (totalLength_loop 0 p0 rest) 0 p0 (firstn k rest)) w)).




(** The switch of [applyBrushStroke] on the family of the selected brush,
    with the colour string already built. *)
Definition family_render (cur : CurrentBrush) (points : list Point)
  (colorStr : Style) : M unit :=
  let b := preset cur in
  if String.eqb (type b) "liner" then
    _applyLinerBrush points colorStr (size b) (opacity b) (spacing b)
                     (scatter b) (pressureSensitivity b)
  else if String.eqb (type b) "shader" then
    _applyShaderBrush points colorStr (size b) (opacity b) (spacing b)
                      (scatter b) (pressureSensitivity b)
  else if String.eqb (type b) "specialized" then
    _applySpecializedBrush (id cur) points colorStr (size b) (opacity b)
                           (spacing b) (scatter b) (pressureSensitivity b)
  else
    _applyDefaultBrush points colorStr (size b) (opacity b).

(** [w'] is [w] after a run that left the marks [ms] on the surface and
    touched neither the stack of saved states nor the random source. *)
Definition marked (w w' : World) (ms : list Mark) : Prop :=
  marks (canvas w') = marks (canvas w) ++ ms
  /\ saved (canvas w') = saved (canvas w)
  /\ stream w' = stream w
  /\ calls w' = calls w.

(** The line width the liner loop leaves behind: the one of the last
    sample after the first, or [size] when there is none. *)
Definition liner_width (size pressureSensitivity : R) (rest : list Point)
  : R :=
  match rest with
  | [] => size
  | p :: rest' =>
      size * pressureFormula pressureSensitivity (pressure_of (last rest' p))
  end.

(** The consecutive pairs of samples of a stroke. *)
Fixpoint segments (prev : Point) (rest : list Point)
  : list (Point * Point) :=
  match rest with
  | [] => []
  | p :: rest' => (prev, p) :: segments p rest'
  end.

(** A mark that strokes the single segment [seg] as a path of its own. *)
Definition strokes_segment (seg : Point * Point) (m : Mark) : Prop :=
  exists st,
    m = Stroked [MoveTo (x (fst seg)) (y (fst seg));
                 LineTo (x (snd seg)) (y (snd seg))] st.

(** The names of the fields of a selected brush. *)
Definition brush_keys : list string :=
  [ "name"; "type"; "size"; "opacity"; "spacing"; "scatter";
    "pressureSensitivity"; "subscription"; "id"; "category" ].

(** The marks of the symmetry guide.  The vertical midline, from the
    mid-forehead to the mid-chin. *)
Definition midline_mark (forehead chin : FacialRecognition.Landmark)
  (m : Mark) : Prop :=
  exists st,
    m = Stroked [MoveTo (FacialRecognition.x forehead)
                        (FacialRecognition.y forehead);
                 LineTo (FacialRecognition.x chin) (FacialRecognition.y chin)]
                st
    /\ strokeStyle st = Css "rgba(0, 120, 255, 0.7)"
    /\ lineWidth st = 1.

(** A dashed horizontal guide across the canvas at height [gy]. *)
Definition guide_mark (canvas_width gy : R) (m : Mark) : Prop :=
  exists st,
    m = Stroked [MoveTo 0 gy; LineTo canvas_width gy] st
    /\ strokeStyle st = Css "rgba(0, 120, 255, 0.5)"
    /\ lineWidth st = 1
    /\ lineDash st = [5; 5].

(** A filled dot of radius 2 on a landmark. *)
Definition dot_mark (color : string) (alpha : R)
  (p : FacialRecognition.Landmark) (m : Mark) : Prop :=
  exists st,
    m = Filled [Arc (FacialRecognition.x p) (FacialRecognition.y p) 2 0
                    (2 * Js.Math_PI)] st
    /\ fillStyle st = Css color
    /\ globalAlpha st = alpha.

(** The heights at which the symmetry guide has a horizontal guide, from
    top to bottom of the drawing order: the mean of the two brow centroids
    if both brows have landmarks, the nose tip if the face has one, the
    centroid of the outer lip if it has landmarks. *)
Definition guide_heights (l : FacialRecognition.Landmarks)
  (refs : FacialRecognition.SymmetryReferences) : list R :=
  (if (0 <? List.length (FacialRecognition.browLeft l))%nat
      && (0 <? List.length (FacialRecognition.browRight l))%nat
   then
     [(FacialRecognition.vy
         (FacialRecognition.calculateCentroid (FacialRecognition.browLeft l))
       + FacialRecognition.vy
           (FacialRecognition.calculateCentroid
              (FacialRecognition.browRight l))) / 2]
   else [])
  ++ match FacialRecognition.noseTip refs with
     | Some nose => [FacialRecognition.y nose]
     | None => []
     end
  ++ (if (0 <? List.length (FacialRecognition.lipOuter l))%nat
      then
        [FacialRecognition.vy
           (FacialRecognition.calculateCentroid
              (FacialRecognition.lipOuter l))]
      else []).

End Observe.

(** ** Sample inputs *)

Module Sample.

Import Canvas Eff Brushes.

(** Landmarks whose nose tip is missing. *)
Definition refs_without_nose : FacialRecognition.SymmetryReferences :=
  FacialRecognition.mkRefs
    (Some (FacialRecognition.mkLandmark 5 0 0)) None
    (Some (FacialRecognition.mkLandmark 5 9 0)) None None.

Definition landmarks_without_nose : FacialRecognition.Landmarks :=
  FacialRecognition.mkLandmarks
    [FacialRecognition.mkLandmark 1 2 0] [] [] [] []
    (Some refs_without_nose).

(** The drawing state of a fresh canvas. *)
Definition fresh_state : DrawState :=
  mkDrawState "source-over" 1 (Css "#000000") (Css "#000000") 1
              "butt" "miter" [].

Definition fresh_canvas : Ctx := mkCtx fresh_state [] [] [].

(** A canvas on which the caller has chosen the 'multiply' blend mode. *)
Definition multiply_state : DrawState :=
  set_globalCompositeOperation "multiply" fresh_state.

Definition multiply_canvas : Ctx := mkCtx multiply_state [] [] [].

(** A random source that always answers 0. *)
Definition zeros : nat -> R := fun _ => 0.

(** The module after [selectBrush('basic', 'standardLiner')]. *)
Definition with_standardLiner : t :=
  snd (selectBrush constructor "basic" "standardLiner").

(** The module after [selectBrush('basic', 'standardShader')]. *)
Definition with_standardShader : t :=
  snd (selectBrush constructor "basic" "standardShader").

(** The module of a pro user after [selectBrush('advanced', 'shader3RS')]. *)
Definition with_shader3RS : t :=
  snd (selectBrush (snd (setUserSubscription constructor "pro"))
                   "advanced" "shader3RS").

(** The colour the editor draws with. *)
Definition pigment : list R := [121; 85; 61].

(** A fresh canvas with the all-zero random source. *)
Definition fresh_world : World := mkWorld fresh_canvas zeros 0.

(** A two-sample stroke, ten units to the right. *)
Definition short_stroke : list Point :=
  [mkPoint 0 0 (Some 1); mkPoint 10 0 (Some 1)].

(** A stroke along the x axis that doubles back: 0, 14, 20, then 5. *)
Definition zigzag : list Point :=
  [mkPoint 0 0 (Some 1); mkPoint 14 0 (Some 1); mkPoint 20 0 (Some 1);
   mkPoint 5 0 (Some 1)].

(** A straight 100-unit path in steps of 25. *)
Definition straight : list Point :=
  [mkPoint 0 0 (Some 1); mkPoint 25 0 (Some 1); mkPoint 50 0 (Some 1);
   mkPoint 75 0 (Some 1); mkPoint 100 0 (Some 1)].

(** Three samples ten units apart on a horizontal line. *)
Definition origin : Point := mkPoint 0 0 (Some 1).

Definition two_more : list Point :=
  [mkPoint 10 0 (Some 1); mkPoint 20 0 (Some 1)].

(** A brush of the specialized family whose id names no variant, as
    [updateCurrentBrushSettings({id: 'feather'})] leaves it. *)
Definition feather : CurrentBrush :=
  mkCurrent shader3RS "feather" "advanced".

(** A brush of a family the renderer does not know, as
    [updateCurrentBrushSettings({type: 'airbrush'})] leaves it. *)
Definition airbrush : CurrentBrush :=
  mkCurrent (mkBrush "Standard Liner" "airbrush" 1 0.9 0.1 0 0.7 "free")
            "standardLiner" "basic".

(** A face with one landmark on each brow, two on the outer lip, and all
    three midline references. *)
Definition refs_with_nose : FacialRecognition.SymmetryReferences :=
  FacialRecognition.mkRefs
    (Some (FacialRecognition.mkLandmark 5 0 0))
    (Some (FacialRecognition.mkLandmark 5 4 0))
    (Some (FacialRecognition.mkLandmark 5 9 0)) None None.

Definition landmarks_with_nose : FacialRecognition.Landmarks :=
  FacialRecognition.mkLandmarks
    [FacialRecognition.mkLandmark 3 2 0]
    [FacialRecognition.mkLandmark 7 2 0]
    [FacialRecognition.mkLandmark 4 7 0; FacialRecognition.mkLandmark 6 7 0]
    [] []
    (Some refs_with_nose).

(** A 10 by 10 overlay canvas that still shows one earlier filled dot. *)
Definition used_canvas : Ctx :=
  mkCtx fresh_state [] [] [Filled [Arc 1 1 2 0 (2 * Js.Math_PI)] fresh_state].

Definition overlay : FacialRecognition.CanvasElement :=
  FacialRecognition.mkCanvasElement (Some used_canvas) 10 10.

End Sample.

(** * Properties *)

Import Canvas Eff Brushes Observe.
Local Open Scope list_scope.

(** ** Brush selection *)

(** C8. A catalog preset that requires the free tier is selected whatever
    the session tier is; a preset that requires the pro tier is refused
    under the free tier, for the subscription reason and with an upgrade
    prompt, and is selected under the pro tier; [selectBrush('advanced',
    'shader3RS')] under the free tier is refused with the prompt titled
    "Unlock 3RS Shader Brush". *)
Theorem selectBrush_respects_tier :
  forall (this : t) (category brushId : string) (group : Dict Brush)
         (b : Brush),
    brushPresets this = presets ->
    lookup presets category = Some group ->
    lookup group brushId = Some b ->
    let granted :=
      (Selected (mkCurrent b brushId category),
       mkBrushes (Some (mkCurrent b brushId category)) presets
                 (userSubscription this)) in
    (subscription b = "free" -> selectBrush this category brushId = granted)
    /\ (subscription b = "pro" -> userSubscription this = "free" ->
        exists prompt,
          selectBrush this category brushId
          = (Refused "subscription_required"
                     "This brush requires a Pro subscription" (Some prompt),
             this))
    /\ (subscription b = "pro" -> userSubscription this = "pro" ->
        selectBrush this category brushId = granted)
    /\ (userSubscription this = "free" ->
        exists prompt,
          fst (selectBrush this "advanced" "shader3RS")
          = Refused "subscription_required"
                    "This brush requires a Pro subscription" (Some prompt)
          /\ title prompt = "Unlock 3RS Shader Brush").
Proof.
  intros this category brushId group b Hcat Hg Hb granted.
  subst granted. unfold selectBrush. rewrite Hcat.
  repeat split.
  - intros Hfree. rewrite Hg, Hb, Hfree. reflexivity.
  - intros Hpro Htier. rewrite Hg, Hb, Hpro, Htier.
    exists (getUpgradePrompt brushId). reflexivity.
  - intros Hpro Htier. rewrite Hg, Hb, Hpro, Htier. reflexivity.
  - intros Htier. rewrite Htier.
    exists (getUpgradePrompt "shader3RS"). split; reflexivity.
Qed.

Lemma selectBrush_respects_tier_witness :
  selectBrush constructor "basic" "standardShader"
  = (Selected (mkCurrent standardShader "standardShader" "basic"),
     mkBrushes (Some (mkCurrent standardShader "standardShader" "basic"))
               presets "free")
  /\ exists prompt,
       fst (selectBrush constructor "advanced" "shader3RS")
       = Refused "subscription_required"
                 "This brush requires a Pro subscription" (Some prompt)
       /\ title prompt = "Unlock 3RS Shader Brush".
Proof.
  pose proof (selectBrush_respects_tier constructor "basic" "standardShader"
                [ ("standardLiner", standardLiner);
                  ("standardShader", standardShader);
                  ("powderBrow", powderBrow) ]
                standardShader eq_refl eq_refl eq_refl) as H.
  destruct H as [Hfree [_ [_ Hscenario]]].
  split.
  - apply Hfree. reflexivity.
  - apply Hscenario. reflexivity.
Defined.

(** ** The symmetry score *)

Lemma Math_round_within (v : R) (a b : Z) :
  IZR a <= v <= IZR b ->
  (a <= Int_part (v + / 2) <= b)%Z.
Proof.
  intros [Hlo Hhi].
  destruct (base_Int_part (v + / 2)) as [Hle Hgt].
  assert (Hlow : IZR (a - 1) < IZR (Int_part (v + / 2)))
    by (rewrite minus_IZR; lra).
  assert (Hhigh : IZR (Int_part (v + / 2)) < IZR (b + 1))
    by (rewrite plus_IZR; lra).
  apply lt_IZR in Hlow. apply lt_IZR in Hhigh. lia.
Qed.

Lemma clamp_0_100 (v : R) :
  IZR 0 <= Js.Math_max 0 (Js.Math_min 100 v) <= IZR 100.
Proof.
  unfold Js.Math_max, Js.Math_min. split.
  - apply Rmax_l.
  - apply Rmax_lub; [lra | apply Rmin_l].
Qed.

Lemma calculateSymmetryScore_try_integer (l : FacialRecognition.Landmarks)
  (v : R) :
  FacialRecognition.calculateSymmetryScore_try l = Some v ->
  exists n : Z, v = IZR n /\ (0 <= n <= 100)%Z.
Proof.
  unfold FacialRecognition.calculateSymmetryScore_try.
  destruct (FacialRecognition.symmetryReferences l) as [refs |];
    [| discriminate].
  assert (Hdefault : Some 80 = Some v ->
                     exists n : Z, v = IZR n /\ (0 <= n <= 100)%Z).
  { intros H. injection H as <-. exists 80%Z. split; [reflexivity | lia]. }
  destruct (FacialRecognition.midForehead refs); [| exact Hdefault].
  destruct (FacialRecognition.noseTip refs); [| exact Hdefault].
  destruct (FacialRecognition.midChin refs); [| exact Hdefault].
  destruct (_ && _); destruct (_ <? _)%nat; cbv zeta iota beta;
    try exact Hdefault;
    (cbn [Nat.eqb]; intros H; injection H as <-;
     eexists; split; [reflexivity |];
     apply Math_round_within; apply clamp_0_100).
Qed.

(** C9. The symmetry score is always an integer between 0 and 100, and it
    is the default 80 whenever one of the reference points mid-forehead,
    nose tip or mid-chin is missing from the landmarks. *)
Theorem calculateSymmetryScore_integer_0_100 :
  forall l : FacialRecognition.Landmarks,
    (exists n : Z,
        FacialRecognition.calculateSymmetryScore l = IZR n
        /\ (0 <= n <= 100)%Z)
    /\ (forall refs,
           FacialRecognition.symmetryReferences l = Some refs ->
           FacialRecognition.midForehead refs = None
           \/ FacialRecognition.noseTip refs = None
           \/ FacialRecognition.midChin refs = None ->
           FacialRecognition.calculateSymmetryScore l = 80).
Proof.
  intros l. split.
  - unfold FacialRecognition.calculateSymmetryScore.
    destruct (FacialRecognition.calculateSymmetryScore_try l) as [v |] eqn:E.
    + exact (calculateSymmetryScore_try_integer l v E).
    + exists 80%Z. split; [reflexivity | lia].
  - intros refs Hrefs Hmissing.
    unfold FacialRecognition.calculateSymmetryScore,
      FacialRecognition.calculateSymmetryScore_try.
    rewrite Hrefs.
    destruct Hmissing as [H | [H | H]]; rewrite H.
    + reflexivity.
    + destruct (FacialRecognition.midForehead refs); reflexivity.
    + destruct (FacialRecognition.midForehead refs);
        [destruct (FacialRecognition.noseTip refs) |]; reflexivity.
Qed.

Lemma calculateSymmetryScore_integer_0_100_witness :
  FacialRecognition.calculateSymmetryScore Sample.landmarks_without_nose = 80.
Proof.
  apply (proj2 (calculateSymmetryScore_integer_0_100
                  Sample.landmarks_without_nose)
               Sample.refs_without_nose).
  - reflexivity.
  - right. left. reflexivity.
Defined.

(** ** The stroke renderer: exits *)

(** The guarded exits of [applyBrushStroke] touch nothing. *)
Lemma applyBrushStroke_guard (this : t) (ctx : option Ctx)
  (points : option (list Point)) (color : option (list R))
  (random : nat -> R) (calls : nat) :
  ctx = None \/ points = None \/ points = Some [] \/ currentBrush this = None ->
  applyBrushStroke this ctx points color random calls = (false, ctx, calls).
Proof.
  unfold applyBrushStroke.
  intros [-> | [-> | [-> | ->]]]; try reflexivity.
  - destruct ctx; reflexivity.
  - destruct ctx; reflexivity.
  - destruct ctx; [destruct points as [[| ? ?] |] |]; reflexivity.
Qed.

(** C1. A call that fails inside the [try] block does not put the surface
    back: [applyBrushStroke(ctx, [{x: 0, y: 0, pressure: 1}], undefined)]
    with the standard liner selected returns false and leaves the blend
    mode of the surface at 'source-over' instead of the caller's 'multiply',
    with the state pushed by [save] still on the stack. *)
Theorem applyBrushStroke_throw_not_restored :
  applyBrushStroke Sample.with_standardLiner (Some Sample.multiply_canvas)
                   (Some [mkPoint 0 0 (Some 1)]) None Sample.zeros 0
  = (false,
     Some (mkCtx (set_globalCompositeOperation "source-over"
                    Sample.multiply_state)
                 [Sample.multiply_state] [] []),
     0%nat)
  /\ globalCompositeOperation
       (set_globalCompositeOperation "source-over" Sample.multiply_state)
     <> globalCompositeOperation Sample.multiply_state.
Proof.
  split.
  - reflexivity.
  - discriminate.
Qed.

(** ** The stroke renderer: dabs *)

Lemma drew_trans (w w' w'' : World) (ds ds' : list Dab) (n n' : nat) :
  drew w w' ds n -> drew w' w'' ds' n' -> drew w w'' (ds ++ ds') (n + n').
Proof.
  intros (Hd & Hm & Hs & Hr & Hc) (Hd' & Hm' & Hs' & Hr' & Hc').
  repeat split.
  - rewrite Hd', Hd, app_assoc. reflexivity.
  - rewrite Hm', Hm, length_app. lia.
  - congruence.
  - congruence.
  - lia.
Qed.

Lemma _drawDot_drew (x y size : R) (color : Style) (alpha : R) (w : World) :
  exists w',
    _drawDot x y size color alpha w = (Normal tt, w')
    /\ drew w w' [mkDab x y (size / 2) alpha] 0.
Proof.
  eexists. split; [reflexivity |].
  repeat split; cbn [canvas stream calls fill marks saved List.length].
  - unfold dabs. cbn [marks fill]. rewrite flat_map_app. reflexivity.
  - rewrite length_app. reflexivity.
  - lia.
Qed.


Lemma _drawTripleDot_drew (x y size : R) (color : Style) (alpha : R)
  (w : World) :
  exists w',
    _drawTripleDot x y size color alpha w = (Normal tt, w')
    /\ drew w w' (triple x y size alpha (stream w (calls w))) 1.
Proof.
  unfold _drawTripleDot.
  unfold bind at 1.
  destruct (_drawDot_drew x y size color alpha w) as (w1 & Hrun1 & Hdrew1).
  rewrite Hrun1.
  unfold bind at 1. unfold Math_random at 1. unfold bind at 1.
  match goal with
  | |- context [_drawDot ?a ?b ?c ?d ?e ?w0] =>
      destruct (_drawDot_drew a b c d e w0) as (w2 & Hrun2 & Hdrew2)
  end.
  rewrite Hrun2.
  match goal with
  | |- context [_drawDot ?a ?b ?c ?d ?e w2] =>
      destruct (_drawDot_drew a b c d e w2) as (w3 & Hrun3 & Hdrew3)
  end.
  exists w3. split; [exact Hrun3 |].
  destruct Hdrew1 as (Hd1 & Hm1 & Hs1 & Hr1 & Hc1).
  destruct Hdrew2 as (Hd2 & Hm2 & Hs2 & Hr2 & Hc2).
  destruct Hdrew3 as (Hd3 & Hm3 & Hs3 & Hr3 & Hc3).
  cbn [canvas stream calls] in *.
  repeat split.
  - rewrite Hd3, Hd2, Hd1, Hr1, Hc1, <- !app_assoc, Nat.add_0_r.
    reflexivity.
  - rewrite Hm3, Hm2, Hm1. cbn [List.length triple]. lia.
  - congruence.
  - congruence.
  - lia.
Qed.

Lemma _applyShaderBrush_loop_drew (colorStr : Style)
  (size opacity scatter pressureSensitivity minDistance : R)
  (rest : list Point) :
  forall (last : Point) (w : World),
  exists w',
    _applyShaderBrush_loop colorStr size opacity scatter pressureSensitivity
      minDistance (x last) (y last) rest w = (Normal tt, w')
    /\ drew w w'
         (shader_dabs (stream w) (calls w) size opacity scatter
            pressureSensitivity (stamped minDistance last rest))
         (2 * List.length (stamped minDistance last rest)).
Proof.
  induction rest as [| p rest IH]; intros last w.
  - exists w. split; [reflexivity |].
    repeat split; cbn [stamped shader_dabs triple_dabs List.length];
      [symmetry; apply app_nil_r | lia | lia].
  - cbn [_applyShaderBrush_loop stamped]. unfold distance.
    destruct (Js.geb _ minDistance).
    + unfold bind at 1. unfold Math_random at 1.
      unfold bind at 1. unfold Math_random at 1.
      unfold bind at 1.
      destruct (_drawDot_drew
                  (x p + (stream w (calls w) - 0.5) * scatter * size * 2)
                  (y p + (stream w (S (calls w)) - 0.5) * scatter * size * 2)
                  (size * (1 + (Js.or_default (pressure p) 1 - 0.5)
                               * pressureSensitivity))
                  colorStr (opacity * Js.or_default (pressure p) 1)
                  (mkWorld (canvas w) (stream w) (S (S (calls w)))))
        as (w1 & Hrun1 & Hdrew1).
      cbn [canvas stream calls] in *. rewrite Hrun1.
      destruct (IH p w1) as (w2 & Hrun2 & Hdrew2).
      exists w2. split; [exact Hrun2 |].
      destruct Hdrew1 as (Hd1 & Hm1 & Hs1 & Hr1 & Hc1).
      destruct Hdrew2 as (Hd2 & Hm2 & Hs2 & Hr2 & Hc2).
      cbn [canvas stream calls] in *.
      repeat split.
      * rewrite Hd2, Hd1, Hr1, Hc1, <- app_assoc.
        cbn [shader_dabs app List.length]. rewrite Nat.add_0_r.
        reflexivity.
      * rewrite Hm2, Hm1, Hr1, Hc1, Nat.add_0_r.
        cbn [shader_dabs List.length]. lia.
      * congruence.
      * congruence.
      * cbn [List.length]. lia.
    + apply IH.
Qed.

Lemma _apply3RSShader_loop_drew (colorStr : Style)
  (size opacity scatter pressureSensitivity minDistance : R)
  (rest : list Point) :
  forall (last : Point) (w : World),
  exists w',
    _apply3RSShader_loop colorStr size opacity scatter pressureSensitivity
      minDistance (x last) (y last) rest w = (Normal tt, w')
    /\ drew w w'
         (triple_dabs (stream w) (calls w) size opacity scatter
            pressureSensitivity (stamped minDistance last rest))
         (3 * List.length (stamped minDistance last rest)).
Proof.
  induction rest as [| p rest IH]; intros last w.
  - exists w. split; [reflexivity |].
    repeat split; cbn [stamped shader_dabs triple_dabs List.length];
      [symmetry; apply app_nil_r | lia | lia].
  - cbn [_apply3RSShader_loop stamped]. unfold distance.
    destruct (Js.geb _ minDistance).
    + unfold bind at 1. unfold Math_random at 1.
      unfold bind at 1. unfold Math_random at 1.
      unfold bind at 1.
      destruct (_drawTripleDot_drew
                  (x p + (stream w (calls w) - 0.5) * scatter * size)
                  (y p + (stream w (S (calls w)) - 0.5) * scatter * size)
                  (size * (1 + (Js.or_default (pressure p) 1 - 0.5)
                               * pressureSensitivity))
                  colorStr (opacity * Js.or_default (pressure p) 1)
                  (mkWorld (canvas w) (stream w) (S (S (calls w)))))
        as (w1 & Hrun1 & Hdrew1).
      cbn [canvas stream calls] in *. rewrite Hrun1.
      destruct (IH p w1) as (w2 & Hrun2 & Hdrew2).
      exists w2. split; [exact Hrun2 |].
      destruct Hdrew1 as (Hd1 & Hm1 & Hs1 & Hr1 & Hc1).
      destruct Hdrew2 as (Hd2 & Hm2 & Hs2 & Hr2 & Hc2).
      cbn [canvas stream calls] in *.
      repeat split.
      * rewrite Hd2, Hd1, Hr1, Hc1, <- app_assoc.
        cbn [triple_dabs List.length]. rewrite Nat.add_1_r.
        reflexivity.
      * rewrite Hm2, Hm1, Hr1, Hc1, Nat.add_1_r. cbn [triple_dabs].
        rewrite !length_app. unfold triple. cbn [List.length]. lia.
      * congruence.
      * congruence.
      * cbn [List.length]. lia.
    + apply IH.
Qed.

(** A Shader render of a non-empty stroke: the initial dab, then one dab
    per stamped sample. *)
Lemma _applyShaderBrush_drew (p0 : Point) (rest : list Point)
  (colorStr : Style) (size opacity spacing scatter pressureSensitivity : R)
  (w : World) :
  exists w',
    _applyShaderBrush (p0 :: rest) colorStr size opacity spacing scatter
                      pressureSensitivity w = (Normal tt, w')
    /\ drew w w'
         (mkDab (x p0) (y p0) (size / 2) opacity
          :: shader_dabs (stream w) (calls w) size opacity scatter
               pressureSensitivity (stamped (size * spacing) p0 rest))
         (2 * List.length (stamped (size * spacing) p0 rest)).
Proof.
  unfold _applyShaderBrush. unfold bind at 1.
  destruct (_drawDot_drew (x p0) (y p0) size colorStr opacity w)
    as (w1 & Hrun1 & Hdrew1).
  rewrite Hrun1.
  destruct (_applyShaderBrush_loop_drew colorStr size opacity scatter
              pressureSensitivity (size * spacing) rest p0 w1)
    as (w2 & Hrun2 & Hdrew2).
  exists w2. split; [exact Hrun2 |].
  pose proof (drew_trans _ _ _ _ _ _ _ Hdrew1 Hdrew2) as H.
  destruct Hdrew1 as (_ & _ & _ & Hr1 & Hc1).
  rewrite Hr1, Hc1, Nat.add_0_r in H. exact H.
Qed.

(** A triple-point render of a non-empty stroke: the initial triple stamp,
    then one triple stamp per stamped sample. *)
Lemma _apply3RSShader_drew (p0 : Point) (rest : list Point)
  (colorStr : Style) (size opacity spacing scatter pressureSensitivity : R)
  (w : World) :
  exists w',
    _apply3RSShader (p0 :: rest) colorStr size opacity spacing scatter
                    pressureSensitivity w = (Normal tt, w')
    /\ drew w w'
         (triple (x p0) (y p0) size opacity (stream w (calls w))
          ++ triple_dabs (stream w) (S (calls w)) size opacity scatter
               pressureSensitivity (stamped (size * spacing) p0 rest))
         (1 + 3 * List.length (stamped (size * spacing) p0 rest)).
Proof.
  unfold _apply3RSShader. unfold bind at 1.
  destruct (_drawTripleDot_drew (x p0) (y p0) size colorStr opacity w)
    as (w1 & Hrun1 & Hdrew1).
  rewrite Hrun1.
  destruct (_apply3RSShader_loop_drew colorStr size opacity scatter
              pressureSensitivity (size * spacing) rest p0 w1)
    as (w2 & Hrun2 & Hdrew2).
  exists w2. split; [exact Hrun2 |].
  pose proof (drew_trans _ _ _ _ _ _ _ Hdrew1 Hdrew2) as H.
  destruct Hdrew1 as (_ & _ & _ & Hr1 & Hc1).
  rewrite Hr1, Hc1, Nat.add_1_r in H. exact H.
Qed.

(** ** The stroke renderer: the public entry *)

(** What [applyBrushStroke] does around a family render [m] that ends
    normally and keeps the stack of saved states: it returns true and hands
    the surface back with the state it had on entry. *)
Lemma try_block_restores (m : M unit) (c0 : Ctx) (random : nat -> R)
  (calls : nat) (w' : World) (ds : list Dab) (n : nat) :
  let w1 :=
    mkWorld (with_state (set_globalCompositeOperation "source-over")
                        (save c0)) random calls in
  m w1 = (Normal tt, w') ->
  drew w1 w' ds n ->
  exists c',
    try_catch (on_ctx save ;;
               set (set_globalCompositeOperation "source-over") ;;
               m ;;
               on_ctx restore ;;
               ret true)%eff
              (fun _ => ret false) (mkWorld c0 random calls)
    = (Normal true, mkWorld c' random (calls + n))
    /\ dabs c' = dabs c0 ++ ds
    /\ List.length (marks c')
       = (List.length (marks c0) + List.length ds)%nat
    /\ state c' = state c0
    /\ saved c' = saved c0.
Proof.
  intros w1 Hrun (Hd & Hm & Hs & Hr & Hc).
  unfold try_catch, bind, set, on_ctx. cbn [canvas stream Eff.calls].
  fold w1. rewrite Hrun.
  subst w1. cbn [canvas stream Eff.calls] in *.
  unfold restore, ret. rewrite Hs. cbn [saved save with_state].
  rewrite Hr, Hc.
  eexists. split; [reflexivity |].
  cbn [state saved marks]. repeat split.
  - unfold dabs in *. cbn [marks] in *. exact Hd.
  - cbn [marks save with_state] in Hm. exact Hm.
Qed.

Lemma applyBrushStroke_normal (this : t) (cur : CurrentBrush) (c0 : Ctx)
  (p0 : Point) (rest : list Point) (color : list R) (random : nat -> R)
  (calls : nat) (m : M unit) (w' : World) (ds : list Dab) (n : nat) :
  let w1 :=
    mkWorld (with_state (set_globalCompositeOperation "source-over")
                        (save c0)) random calls in
  currentBrush this = Some cur ->
  applyBrushStroke_body cur (p0 :: rest) (Some color)
  = try_catch (on_ctx save ;;
               set (set_globalCompositeOperation "source-over") ;;
               m ;;
               on_ctx restore ;;
               ret true)%eff
              (fun _ => ret false) ->
  m w1 = (Normal tt, w') ->
  drew w1 w' ds n ->
  exists c',
    applyBrushStroke this (Some c0) (Some (p0 :: rest)) (Some color)
                     random calls
    = (true, Some c', (calls + n)%nat)
    /\ dabs c' = dabs c0 ++ ds
    /\ List.length (marks c')
       = (List.length (marks c0) + List.length ds)%nat
    /\ state c' = state c0
    /\ saved c' = saved c0.
Proof.
  intros w1 Hcur Hbody Hrun Hdrew.
  destruct (try_block_restores m c0 random calls w' ds n Hrun Hdrew)
    as (c' & Htry & Hrest).
  exists c'. split; [| exact Hrest].
  unfold applyBrushStroke. rewrite Hcur, Hbody, Htry. reflexivity.
Qed.

Lemma body_shader (cur : CurrentBrush) (points : list Point)
  (color : list R) :
  type (preset cur) = "shader" ->
  applyBrushStroke_body cur points (Some color)
  = try_catch
      (on_ctx save ;;
       set (set_globalCompositeOperation "source-over") ;;
       _applyShaderBrush points
         (Rgba (nth_error color 0) (nth_error color 1) (nth_error color 2) 1)
         (size (preset cur)) (opacity (preset cur)) (spacing (preset cur))
         (scatter (preset cur)) (pressureSensitivity (preset cur)) ;;
       on_ctx restore ;;
       ret true)%eff
      (fun _ => ret false).
Proof.
  intros Htype. unfold applyBrushStroke_body. rewrite Htype. reflexivity.
Qed.




(** ** The stamping cadence *)

Lemma distance_nonneg (a b : Point) : 0 <= distance a b.
Proof. unfold distance, Js.Math_sqrt. apply sqrt_pos. Qed.

Lemma geb_true (a b : R) : b <= a -> Js.geb a b = true.
Proof.
  intros H. unfold Js.geb. destruct (Rge_dec a b); [reflexivity | lra].
Qed.

Lemma geb_false (a b : R) : a < b -> Js.geb a b = false.
Proof.
  intros H. unfold Js.geb. destruct (Rge_dec a b); [lra | reflexivity].
Qed.

Lemma stamped_all (threshold : R) (rest : list Point) :
  threshold <= 0 -> forall last, stamped threshold last rest = rest.
Proof.
  intros Hle. induction rest as [| p rest IH]; intros last.
  - reflexivity.
  - cbn [stamped]. rewrite geb_true.
    + rewrite IH. reflexivity.
    + pose proof (distance_nonneg last p). lra.
Qed.

Lemma stamped_length (threshold : R) (rest : list Point) :
  forall last,
    (List.length (stamped threshold last rest) <= List.length rest)%nat.
Proof.
  induction rest as [| p rest IH]; intros last; cbn [stamped List.length].
  - lia.
  - destruct (Js.geb _ _).
    + cbn [List.length]. specialize (IH p). lia.
    + specialize (IH last). lia.
Qed.


(** ** Jitter *)

Lemma jitter_bound (r amplitude : R) :
  0 <= r < 1 -> 0 <= amplitude ->
  Rabs ((r - 0.5) * amplitude * 2) <= amplitude.
Proof.
  intros Hr Ha. apply Rabs_le. split; nra.
Qed.

Lemma within_offset (bound : R) (p : Point) (jx jy r a : R) :
  Rabs jx <= bound -> Rabs jy <= bound ->
  within bound p (mkDab (x p + jx) (y p + jy) r a).
Proof.
  intros Hx Hy. unfold within. cbn [cx cy].
  replace (x p + jx - x p) with jx by ring.
  replace (y p + jy - y p) with jy by ring.
  split; assumption.
Qed.

Section Jitter.

Variable stream : nat -> R.
Variables size opacity scatter pressureSensitivity : R.

Hypothesis stream_unit : forall k, 0 <= stream k < 1.
Hypothesis scatter_nonneg : 0 <= scatter.
Hypothesis size_nonneg : 0 <= size.

Lemma shader_dabs_within (ps : list Point) :
  forall k : nat,
    Forall2 (within (scatter * size)) ps
            (shader_dabs stream k size opacity scatter pressureSensitivity ps).
Proof.
  assert (Hamp : 0 <= scatter * size) by nra.
  induction ps as [| p ps IH]; intros k; cbn [shader_dabs].
  - constructor.
  - constructor; [| apply IH].
    apply within_offset.
    + replace ((stream k - 0.5) * scatter * size * 2)
        with ((stream k - 0.5) * (scatter * size) * 2) by ring.
      apply jitter_bound; auto.
    + replace ((stream (S k) - 0.5) * scatter * size * 2)
        with ((stream (S k) - 0.5) * (scatter * size) * 2) by ring.
      apply jitter_bound; auto.
Qed.

Lemma triple_dabs_within (ps : list Point) :
  forall k : nat,
    Forall2 (within (scatter * size / 2)) ps
            (centres (triple_dabs stream k size opacity scatter
                                  pressureSensitivity ps)).
Proof.
  assert (Hamp : 0 <= scatter * size / 2) by nra.
  induction ps as [| p ps IH]; intros k; cbn [triple_dabs].
  - constructor.
  - unfold triple. cbn [app centres].
    constructor; [| apply IH].
    apply within_offset.
    + replace ((stream k - 0.5) * scatter * size)
        with ((stream k - 0.5) * (scatter * size / 2) * 2) by field.
      apply jitter_bound; auto.
    + replace ((stream (S k) - 0.5) * scatter * size)
        with ((stream (S k) - 0.5) * (scatter * size / 2) * 2) by field.
      apply jitter_bound; auto.
Qed.

End Jitter.

Lemma within_self (p : Point) (r a : R) :
  within 0 p (mkDab (x p) (y p) r a).
Proof.
  unfold within. cbn [cx cy].
  replace (x p - x p) with 0 by ring.
  replace (y p - y p) with 0 by ring.
  rewrite Rabs_R0. split; lra.
Qed.

Lemma within_weaken (b b' : R) (p : Point) (d : Dab) :
  b <= b' -> within b p d -> within b' p d.
Proof. unfold within. intros Hb [Hx Hy]. split; lra. Qed.

(** C6. With a random source answering in [0,1) and a non-negative scatter
    and size, every dab of a Shader render lies within scatter*size of its
    sample on each axis, and the centre of every triple stamp of a
    triple-point render within scatter*size/2; with scatter 0 both bounds
    are 0, so no dab is displaced. *)
Theorem jitter_within_scatter :
  forall (p0 : Point) (rest : list Point) (colorStr : Style)
         (size opacity spacing scatter pressureSensitivity : R) (w : World),
    (forall k, 0 <= stream w k < 1) ->
    0 <= scatter ->
    0 <= size ->
    let samples := p0 :: stamped (size * spacing) p0 rest in
    (exists ds,
        dabs (surface_after
                (_applyShaderBrush (p0 :: rest) colorStr size opacity spacing
                                   scatter pressureSensitivity) w)
        = dabs (canvas w) ++ ds
        /\ Forall2 (within (scatter * size)) samples ds)
    /\ (exists ds,
           dabs (surface_after
                   (_apply3RSShader (p0 :: rest) colorStr size opacity
                                    spacing scatter pressureSensitivity) w)
           = dabs (canvas w) ++ ds
           /\ Forall2 (within (scatter * size / 2)) samples (centres ds))
    /\ (exists ds,
           dabs (surface_after
                   (_applyShaderBrush (p0 :: rest) colorStr size opacity
                                      spacing 0 pressureSensitivity) w)
           = dabs (canvas w) ++ ds
           /\ Forall2 (within 0) samples ds)
    /\ (exists ds,
           dabs (surface_after
                   (_apply3RSShader (p0 :: rest) colorStr size opacity
                                    spacing 0 pressureSensitivity) w)
           = dabs (canvas w) ++ ds
           /\ Forall2 (within 0) samples (centres ds)).
Proof.
  intros p0 rest colorStr size opacity spacing scatter pressureSensitivity w
         Hstream Hscatter Hsize samples.
  assert (Hamp : 0 <= scatter * size) by nra.
  assert (Hshader :
    forall sc, 0 <= sc ->
      exists ds,
        dabs (surface_after
                (_applyShaderBrush (p0 :: rest) colorStr size opacity spacing
                                   sc pressureSensitivity) w)
        = dabs (canvas w) ++ ds
        /\ Forall2 (within (sc * size)) samples ds).
  { intros sc Hsc.
    destruct (_applyShaderBrush_drew p0 rest colorStr size opacity spacing
                sc pressureSensitivity w) as (w' & Hrun & Hd & _).
    eexists. unfold surface_after. rewrite Hrun. split; [exact Hd |].
    constructor.
    - apply (within_weaken 0); [nra | apply within_self].
    - apply shader_dabs_within; assumption. }
  assert (Htriple :
    forall sc, 0 <= sc ->
      exists ds,
        dabs (surface_after
                (_apply3RSShader (p0 :: rest) colorStr size opacity spacing
                                 sc pressureSensitivity) w)
        = dabs (canvas w) ++ ds
        /\ Forall2 (within (sc * size / 2)) samples (centres ds)).
  { intros sc Hsc.
    destruct (_apply3RSShader_drew p0 rest colorStr size opacity spacing
                sc pressureSensitivity w) as (w' & Hrun & Hd & _).
    eexists. unfold surface_after. rewrite Hrun. split; [exact Hd |].
    unfold triple at 1. cbn [app centres].
    constructor.
    - apply (within_weaken 0); [nra | apply within_self].
    - apply triple_dabs_within; assumption. }
  split; [apply Hshader; assumption |].
  split; [apply Htriple; assumption |].
  split.
  - destruct (Hshader 0 (Rle_refl 0)) as (ds & Hd & Hin).
    exists ds. split; [exact Hd |].
    replace (0 * size) with 0 in Hin by ring. exact Hin.
  - destruct (Htriple 0 (Rle_refl 0)) as (ds & Hd & Hin).
    exists ds. split; [exact Hd |].
    replace (0 * size / 2) with 0 in Hin by field. exact Hin.
Qed.

Lemma jitter_within_scatter_witness :
  exists ds,
    dabs (surface_after
            (_applyShaderBrush Sample.short_stroke (Css "#795") 3 0.8 0.15
                               0.1 0.8) Sample.fresh_world)
    = dabs (canvas Sample.fresh_world) ++ ds
    /\ Forall2 (within (0.1 * 3))
               (mkPoint 0 0 (Some 1)
                :: stamped (3 * 0.15) (mkPoint 0 0 (Some 1))
                     [mkPoint 10 0 (Some 1)])
               ds.
Proof.
  refine (proj1 (jitter_within_scatter (mkPoint 0 0 (Some 1))
                   [mkPoint 10 0 (Some 1)] (Css "#795") 3 0.8 0.15 0.1 0.8
                   Sample.fresh_world _ _ _)).
  - intros k. cbn. unfold Sample.zeros. lra.
  - lra.
  - lra.
Defined.

(** ** Stamp count against spacing *)

Lemma shader_dabs_length (stream : nat -> R)
  (size opacity scatter pressureSensitivity : R) (ps : list Point) :
  forall k,
    List.length (shader_dabs stream k size opacity scatter
                             pressureSensitivity ps)
    = List.length ps.
Proof.
  induction ps as [| p ps IH]; intros k; cbn [shader_dabs List.length].
  - reflexivity.
  - rewrite IH. reflexivity.
Qed.

Lemma stampCount_stamped (p0 : Point) (rest : list Point) (colorStr : Style)
  (size opacity spacing scatter pressureSensitivity : R) (w : World) :
  stampCount (p0 :: rest) colorStr size opacity spacing scatter
             pressureSensitivity w
  = S (List.length (stamped (size * spacing) p0 rest)).
Proof.
  unfold stampCount.
  destruct (_applyShaderBrush_drew p0 rest colorStr size opacity spacing
              scatter pressureSensitivity w) as (w' & Hrun & Hd & _).
  unfold surface_after. rewrite Hrun. cbn [snd]. rewrite Hd.
  rewrite length_app. cbn [List.length]. rewrite shader_dabs_length. lia.
Qed.

Lemma distance_horizontal (a b : Point) :
  y b = y a -> distance a b = Rabs (x b - x a).
Proof.
  intros Hy. unfold distance, Js.Math_sqrt. rewrite Hy.
  replace ((x b - x a) * (x b - x a) + (y a - y a) * (y a - y a))
    with (Rsqr (x b - x a)) by (unfold Rsqr; ring).
  apply sqrt_Rsqr_abs.
Qed.

(** Two stamping runs over the same samples, the first with the smaller
    threshold: while the first run's reference is no later than the second
    run's, the second run stamps no more; otherwise at most one more. *)
Lemma stamped_mono (d1 d2 : R) (rest : list Point) :
  d1 <= d2 ->
  (forall la lb,
      Forall (fun r => distance lb r <= distance la r) rest ->
      leads la rest -> advancing rest ->
      (List.length (stamped d2 lb rest)
       <= List.length (stamped d1 la rest))%nat)
  /\ (forall la lb,
         leads la rest -> advancing rest ->
         (List.length (stamped d2 lb rest)
          <= S (List.length (stamped d1 la rest)))%nat).
Proof.
  intros Hd. induction rest as [| q rest [IHsame IHahead]].
  - split; intros; cbn; lia.
  - split.
    + intros la lb Hbehind [Hqla Hla] [Hq Hadv].
      inversion Hbehind as [| ? ? Hhead Htail]; subst.
      cbn [stamped].
      destruct (Js.geb (distance lb q) d2) eqn:Eb;
        destruct (Js.geb (distance la q) d1) eqn:Ea; cbn [List.length].
      * apply le_n_S. apply IHsame; auto.
        apply Forall_forall. intros; lra.
      * exfalso. unfold Js.geb in Ea, Eb.
        destruct (Rge_dec (distance lb q) d2); [| discriminate].
        destruct (Rge_dec (distance la q) d1); [discriminate | lra].
      * apply IHahead; auto.
      * apply IHsame; auto.
    + intros la lb [Hqla Hla] [Hq Hadv].
      cbn [stamped].
      destruct (Js.geb (distance lb q) d2) eqn:Eb;
        destruct (Js.geb (distance la q) d1) eqn:Ea; cbn [List.length].
      * apply le_n_S. apply IHahead; auto.
      * apply le_n_S. apply IHsame; auto.
      * apply Nat.le_le_succ_r. apply IHahead; auto.
      * apply IHahead; auto.
Qed.

Lemma rightward_all (rest : list Point) :
  forall p,
    rightward p rest -> Forall (fun r => y r = y p /\ x p <= x r) rest.
Proof.
  induction rest as [| q rest IH]; intros p H; cbn [rightward] in H.
  - constructor.
  - destruct H as (Hy & Hx & Hq). constructor; [split; assumption |].
    specialize (IH q Hq).
    eapply Forall_impl; [| exact IH].
    cbn beta. intros r [Hyr Hxr]. split; [congruence | lra].
Qed.

Lemma rightward_skip (p q : Point) (rest : list Point) :
  y q = y p -> x p <= x q -> rightward q rest -> rightward p rest.
Proof.
  intros Hy Hx. destruct rest as [| r rest]; cbn [rightward]; [trivial |].
  intros (Hyr & Hxr & Hr). repeat split; [congruence | lra | exact Hr].
Qed.

Lemma rightward_leads (rest : list Point) :
  forall p, rightward p rest -> leads p rest.
Proof.
  induction rest as [| q rest IH]; intros p H; cbn [leads]; [trivial |].
  pose proof H as (Hy & Hx & Hq). split.
  - pose proof (rightward_all rest q Hq) as Hall.
    eapply Forall_impl; [| exact Hall].
    cbn beta. intros r [Hyr Hxr].
    rewrite !distance_horizontal by congruence.
    rewrite !Rabs_right by lra. lra.
  - apply IH. eapply rightward_skip; eassumption.
Qed.

Lemma rightward_advancing (rest : list Point) :
  forall p, rightward p rest -> advancing (p :: rest).
Proof.
  induction rest as [| q rest IH]; intros p H.
  - cbn. auto.
  - cbn [advancing]. split; [apply rightward_leads; exact H |].
    apply IH. apply H.
Qed.

(** C7 (as the code has it). For a stroke that never doubles back, such as
    a straight path walked in one direction, and a size that is not
    negative, the number of dabs of a Shader render does not grow when the
    spacing grows; for any stroke whatever, spacing 0 stamps every sample
    and so at least as many as any other spacing. *)
Theorem stampCount_monotone_when_advancing :
  forall (p0 : Point) (rest : list Point) (colorStr : Style)
         (size opacity scatter pressureSensitivity s1 s2 : R) (w : World),
    0 <= size ->
    s1 <= s2 ->
    (advancing (p0 :: rest) ->
     (stampCount (p0 :: rest) colorStr size opacity s2 scatter
                 pressureSensitivity w
      <= stampCount (p0 :: rest) colorStr size opacity s1 scatter
                    pressureSensitivity w)%nat)
    /\ (rightward p0 rest -> advancing (p0 :: rest))
    /\ stampCount (p0 :: rest) colorStr size opacity 0 scatter
                  pressureSensitivity w
       = List.length (p0 :: rest)
    /\ (stampCount (p0 :: rest) colorStr size opacity s2 scatter
                   pressureSensitivity w
        <= stampCount (p0 :: rest) colorStr size opacity 0 scatter
                      pressureSensitivity w)%nat.
Proof.
  intros p0 rest colorStr size opacity scatter pressureSensitivity s1 s2 w
         Hsize Hs.
  rewrite !stampCount_stamped.
  assert (Hzero : stamped (size * 0) p0 rest = rest)
    by (apply stamped_all; lra).
  split; [| split; [| split]].
  - intros [Hleads Hadv]. apply le_n_S.
    apply (proj1 (stamped_mono (size * s1) (size * s2) rest
                    ltac:(nra))); auto.
    apply Forall_forall. intros; lra.
  - apply rightward_advancing.
  - rewrite Hzero. reflexivity.
  - rewrite Hzero. apply le_n_S. apply stamped_length.
Qed.

Lemma stampCount_monotone_when_advancing_witness :
  (stampCount Sample.straight (Css "#795") 10 0.8 1 0.1 0.8
              Sample.fresh_world
   <= stampCount Sample.straight (Css "#795") 10 0.8 0 0.1 0.8
                 Sample.fresh_world)%nat.
Proof.
  destruct (stampCount_monotone_when_advancing
              (mkPoint 0 0 (Some 1))
              [mkPoint 25 0 (Some 1); mkPoint 50 0 (Some 1);
               mkPoint 75 0 (Some 1); mkPoint 100 0 (Some 1)]
              (Css "#795") 10 0.8 0.1 0.8 0 1 Sample.fresh_world)
    as (Hmono & Hright & _); [lra | lra |].
  apply Hmono. apply Hright.
  cbn [rightward x y]. repeat split; lra.
Defined.

(** On the stroke 0, 14, 20, 5 with size 20, spacing 0.5 stamps the first
    two samples only, and spacing 0.75 stamps the first, the third and the
    fourth. *)
Lemma stampCount_zigzag :
  stampCount Sample.zigzag (Css "#795") 20 1 0.5 0 0 Sample.fresh_world
  = 2%nat
  /\ stampCount Sample.zigzag (Css "#795") 20 1 0.75 0 0 Sample.fresh_world
     = 3%nat.
Proof.
  unfold Sample.zigzag. rewrite !stampCount_stamped.
  assert (Hd : forall (a b : R) (c d : option R),
             distance (mkPoint a 0 c) (mkPoint b 0 d) = Rabs (b - a))
    by (intros; apply distance_horizontal; reflexivity).
  split; cbn [stamped]; rewrite !Hd.
  - rewrite (geb_true (Rabs (14 - 0))) by (rewrite Rabs_right; lra).
    rewrite (geb_false (Rabs (20 - 14))) by (rewrite Rabs_right; lra).
    rewrite (geb_false (Rabs (5 - 14))) by (rewrite Rabs_left; lra).
    reflexivity.
  - rewrite (geb_false (Rabs (14 - 0))) by (rewrite Rabs_right; lra).
    rewrite (geb_true (Rabs (20 - 0))) by (rewrite Rabs_right; lra).
    rewrite (geb_true (Rabs (5 - 20))) by (rewrite Rabs_left; lra).
    reflexivity.
Qed.

(** The claim of C7 fails on a stroke that doubles back: the larger spacing
    stamps more. *)
Lemma stampCount_not_monotone :
  ~ (forall (points : list Point) (colorStr : Style)
            (size opacity scatter pressureSensitivity s1 s2 : R) (w : World),
        s1 <= s2 ->
        (stampCount points colorStr size opacity s2 scatter
                    pressureSensitivity w
         <= stampCount points colorStr size opacity s1 scatter
                       pressureSensitivity w)%nat).
Proof.
  intros Hmono.
  specialize (Hmono Sample.zigzag (Css "#795") 20 1 0 0 0.5 0.75
                    Sample.fresh_world ltac:(lra)).
  destruct stampCount_zigzag as [H1 H2].
  rewrite H1, H2 in Hmono. lia.
Qed.

Lemma pressure_of_one (a b : R) : pressure_of (mkPoint a b (Some 1)) = 1.
Proof.
  unfold pressure_of, Js.or_default. cbn [pressure].
  destruct (Req_dec_T 1 0); lra.
Qed.

(** ** The gradient outline *)

Lemma _applyOmbreLipOutline_loop_alphas (r g b : option R)
  (size opacity pressureSensitivity : R) (length : nat)
  (rest : list Point) :
  forall (i : nat) (w : World),
  exists w',
    _applyOmbreLipOutline_loop r g b size opacity pressureSensitivity
      length i rest w = (Normal tt, w')
    /\ stroke_alphas (canvas w')
       = stroke_alphas (canvas w) ++ ombre_alphas opacity length i rest.
Proof.
  induction rest as [| p rest IH]; intros i w.
  - exists w. split; [reflexivity |]. cbn. symmetry. apply app_nil_r.
  - cbn [_applyOmbreLipOutline_loop ombre_alphas].
    unfold bind, set, on_ctx. cbn [canvas stream calls].
    destruct (Js.ltb (INR i) (INR length - 1));
      unfold ret; cbn [canvas stream calls];
      match goal with
      | |- context [_applyOmbreLipOutline_loop _ _ _ _ _ _ _ _ _ ?w0] =>
          destruct (IH (S i) w0) as (w' & Hrun & Halpha)
      end;
      rewrite Hrun; exists w'; (split; [reflexivity |]);
      rewrite Halpha; unfold stroke_alphas; cbn;
      rewrite flat_map_app, <- app_assoc; reflexivity.
Qed.

Lemma _applyOmbreLipOutline_alphas (p0 p1 : Point) (rest : list Point)
  (colorStr : Style) (size opacity spacing pressureSensitivity : R)
  (w : World) :
  stroke_alphas
    (surface_after
       (_applyOmbreLipOutline (p0 :: p1 :: rest) colorStr size opacity
                              spacing pressureSensitivity) w)
  = stroke_alphas (canvas w)
    ++ ombre_alphas opacity (List.length (p0 :: p1 :: rest)) 1 (p1 :: rest).
Proof.
  unfold surface_after, _applyOmbreLipOutline.
  destruct (baseColor colorStr) as [[r g] b].
  unfold bind, set, on_ctx. cbn [canvas stream calls].
  match goal with
  | |- context [_applyOmbreLipOutline_loop _ _ _ _ _ _ _ _ _ ?w0] =>
      destruct (_applyOmbreLipOutline_loop_alphas r g b size opacity
                  pressureSensitivity (List.length (p0 :: p1 :: rest))
                  (p1 :: rest) 1 w0) as (w' & Hrun & Halpha)
  end.
  rewrite Hrun. cbn [snd]. rewrite Halpha. reflexivity.
Qed.

Lemma ombre_alphas_length (opacity : R) (n : nat) (rest : list Point) :
  forall i, List.length (ombre_alphas opacity n i rest) = List.length rest.
Proof.
  induction rest as [| p rest IH]; intros i; cbn [ombre_alphas List.length].
  - reflexivity.
  - rewrite IH. reflexivity.
Qed.

Lemma ombre_alphas_nth (opacity pr : R) (n : nat) (rest : list Point) :
  Forall (fun p => pressure_of p = pr) rest ->
  forall i k,
    (k < List.length rest)%nat ->
    nth k (ombre_alphas opacity n i rest) 0
    = opacity * (1 - INR (i + k) / (INR n - 1) * 0.3) * pr.
Proof.
  induction 1 as [| p rest Hp Hrest IH]; intros i k Hk;
    cbn [List.length] in Hk; [lia |].
  cbn [ombre_alphas]. destruct k as [| k]; cbn [nth].
  - rewrite Hp, Nat.add_0_r. reflexivity.
  - rewrite IH by lia. replace (S i + k)%nat with (i + S k)%nat by lia.
    reflexivity.
Qed.

Lemma ombre_alphas_last (opacity pr : R) (n : nat) (rest : list Point) :
  Forall (fun p => pressure_of p = pr) rest ->
  forall p i,
    pressure_of p = pr ->
    last (ombre_alphas opacity n i (p :: rest)) 0
    = opacity * (1 - INR (i + List.length rest) / (INR n - 1) * 0.3) * pr.
Proof.
  induction 1 as [| q rest Hq Hrest IH]; intros p i Hp.
  - cbn. rewrite Hp, Nat.add_0_r. reflexivity.
  - specialize (IH q (S i) Hq).
    cbn [ombre_alphas last List.length] in *.
    rewrite IH. replace (S i + List.length rest)%nat
      with (i + S (List.length rest))%nat by lia.
    reflexivity.
Qed.

(** C2 (as the code has it). In a gradient-outline render of n >= 2 samples
    under a constant pressure, the segment ending at sample i (i from 1 to
    n-1) is stroked with alpha opacity*(1 - 0.3*i/(n-1))*pressure, linear in
    i/(n-1): the last segment has opacity*0.7*pressure, and the first drawn
    segment has opacity*(1 - 0.3/(n-1))*pressure. *)
Theorem ombre_alpha_by_segment :
  forall (p0 p1 : Point) (rest : list Point) (colorStr : Style)
         (size opacity spacing pressureSensitivity pr : R) (w : World),
    Forall (fun p => pressure_of p = pr) (p1 :: rest) ->
    let n := List.length (p0 :: p1 :: rest) in
    exists alphas,
      stroke_alphas
        (surface_after
           (_applyOmbreLipOutline (p0 :: p1 :: rest) colorStr size opacity
                                  spacing pressureSensitivity) w)
      = stroke_alphas (canvas w) ++ alphas
      /\ List.length alphas = (n - 1)%nat
      /\ (forall i, (1 <= i <= n - 1)%nat ->
            nth (i - 1) alphas 0
            = opacity * (1 - INR i / (INR n - 1) * 0.3) * pr)
      /\ last alphas 0 = opacity * 0.7 * pr
      /\ hd 0 alphas = opacity * (1 - 0.3 / (INR n - 1)) * pr.
Proof.
  intros p0 p1 rest colorStr size opacity spacing pressureSensitivity pr w
         Hpr n.
  exists (ombre_alphas opacity n 1 (p1 :: rest)).
  split; [apply _applyOmbreLipOutline_alphas |].
  split; [rewrite ombre_alphas_length; subst n; cbn [List.length]; lia |].
  split; [| split].
  - intros i Hi. subst n. cbn [List.length] in Hi.
    rewrite (ombre_alphas_nth opacity pr _ _ Hpr)
      by (cbn [List.length]; lia).
    replace (1 + (i - 1))%nat with i by lia. reflexivity.
  - pose proof (Forall_inv Hpr) as Hp1. cbn beta in Hp1.
    pose proof (Forall_inv_tail Hpr) as Hrest.
    rewrite (ombre_alphas_last opacity pr _ rest Hrest p1 1 Hp1).
    subst n. cbn [List.length].
    change (1 + List.length rest)%nat with (S (List.length rest)).
    replace (INR (S (S (List.length rest))) - 1)
      with (INR (S (List.length rest)))
      by (rewrite (S_INR (S (List.length rest))); ring).
    assert (Hpos : 0 < INR (S (List.length rest)))
      by (apply lt_0_INR; lia).
    replace (INR (S (List.length rest)) / INR (S (List.length rest)))
      with 1 by (field; lra).
    lra.
  - pose proof (Forall_inv Hpr) as Hp1. cbn beta in Hp1.
    pose proof (Forall_inv_tail Hpr) as Hrest.
    cbn [ombre_alphas hd]. rewrite Hp1. cbn [INR]. lra.
Qed.

Lemma ombre_alpha_by_segment_witness :
  exists alphas,
    stroke_alphas
      (surface_after
         (_applyOmbreLipOutline Sample.straight (Css "#795") 2 0.9 0.05 0.8)
         Sample.fresh_world)
    = stroke_alphas (canvas Sample.fresh_world) ++ alphas
    /\ last alphas 0 = 0.9 * 0.7 * 1.
Proof.
  destruct (ombre_alpha_by_segment
              (mkPoint 0 0 (Some 1)) (mkPoint 25 0 (Some 1))
              [mkPoint 50 0 (Some 1); mkPoint 75 0 (Some 1);
               mkPoint 100 0 (Some 1)]
              (Css "#795") 2 0.9 0.05 0.8 1 Sample.fresh_world)
    as (alphas & Hrun & _ & _ & Hlast & _).
  - repeat constructor; apply pressure_of_one.
  - exists alphas. split; [exact Hrun | exact Hlast].
Defined.

(** The claim of C2 fails on its first endpoint: on three samples the
    first drawn segment, which ends at the middle sample, has alpha
    opacity*0.85*pressure and not opacity*pressure. *)
Lemma ombre_first_segment_not_full :
  hd 0 (stroke_alphas
          (surface_after
             (_applyOmbreLipOutline (Sample.origin :: Sample.two_more)
                                    (Css "#795") 2 0.9 0.05 0.8)
             Sample.fresh_world))
  = 0.765
  /\ hd 0 (stroke_alphas
             (surface_after
                (_applyOmbreLipOutline (Sample.origin :: Sample.two_more)
                                       (Css "#795") 2 0.9 0.05 0.8)
                Sample.fresh_world))
     <> 0.9 * 1.
Proof.
  unfold Sample.two_more.
  rewrite _applyOmbreLipOutline_alphas.
  cbn [ombre_alphas List.length INR canvas Sample.fresh_world
       Sample.fresh_canvas stroke_alphas marks flat_map app hd].
  rewrite pressure_of_one. split; lra.
Qed.

(** ** The tapered stroke *)

Lemma last_cons_default {A : Type} (l : list A) :
  forall a d d' : A, last (a :: l) d = last (a :: l) d'.
Proof.
  induction l as [| b l IH]; intros a d d'.
  - reflexivity.
  - change (last (b :: l) d = last (b :: l) d'). apply IH.
Qed.

(** The width the tapered loop leaves on the surface is the one computed
    at the last sample it handled, from the length traveled up to it. *)
Lemma _applyMicrobladeNatural_loop_width
  (size pressureSensitivity totalLength : R) (rest : list Point) :
  forall (currentLength : R) (prevPoint p : Point) (w : World),
  exists w',
    _applyMicrobladeNatural_loop size pressureSensitivity totalLength
      currentLength prevPoint (p :: rest) w = (Normal tt, w')
    /\ lineWidth (state (canvas w'))
       = let progress :=
           totalLength_loop currentLength prevPoint (p :: rest)
           / totalLength in
         size * (4 * progress * (1 - progress))
         * pressureFormula pressureSensitivity
             (pressure_of (last (p :: rest) p)).
Proof.
  induction rest as [| q rest IH]; intros currentLength prevPoint p w.
  - eexists. split; [reflexivity |]. reflexivity.
  - remember (q :: rest) as tail eqn:Etail.
    cbn [_applyMicrobladeNatural_loop].
    unfold bind at 1. unfold set at 1. unfold on_ctx at 1.
    unfold bind at 1. unfold on_ctx at 1.
    cbn [canvas stream calls].
    subst tail.
    match goal with
    | |- context [_applyMicrobladeNatural_loop _ _ _ ?c ?pp (q :: rest) ?w0] =>
        destruct (IH c pp q w0) as (w' & Hrun & Hwidth)
    end.
    exists w'. split; [exact Hrun |].
    rewrite Hwidth.
    change (last (p :: q :: rest) p) with (last (q :: rest) p).
    rewrite (last_cons_default rest q p q).
    reflexivity.
Qed.






Lemma last_cons (A : Type) (l : list A) :
  forall a d : A, last (a :: l) d = last l a.
Proof.
  induction l as [| b l IH]; intros a d.
  - reflexivity.
  - change (last (b :: l) d = last (b :: l) a).
    rewrite !IH. reflexivity.
Qed.











(** ** The fallbacks *)

Lemma _applyDefaultBrush_loop_path (rest : list Point) :
  forall w : World,
  exists w',
    _applyDefaultBrush_loop rest w = (Normal tt, w')
    /\ path (canvas w')
       = path (canvas w) ++ map (fun p => LineTo (x p) (y p)) rest
    /\ state (canvas w') = state (canvas w)
    /\ saved (canvas w') = saved (canvas w)
    /\ marks (canvas w') = marks (canvas w)
    /\ stream w' = stream w
    /\ calls w' = calls w.
Proof.
  induction rest as [| p rest IH]; intros w.
  - exists w. split; [reflexivity |].
    cbn [map]. rewrite app_nil_r. auto 10.
  - cbn [_applyDefaultBrush_loop]. unfold bind at 1. unfold on_ctx at 1.
    match goal with
    | |- context [_applyDefaultBrush_loop rest ?w0] =>
        destruct (IH w0) as (w' & Hrun & Hpath & Hstate & Hsaved & Hmarks
                             & Hstream & Hcalls)
    end.
    exists w'. split; [exact Hrun |].
    cbn [canvas stream calls add_cmd path state saved marks] in *.
    rewrite Hpath, <- app_assoc. cbn [map app]. auto 10.
Qed.

Lemma _applyDefaultBrush_marks (p0 : Point) (rest : list Point)
  (colorStr : Style) (size opacity : R) (w : World) :
  exists w' st,
    _applyDefaultBrush (p0 :: rest) colorStr size opacity w = (Normal tt, w')
    /\ marks (canvas w')
       = marks (canvas w) ++ [Stroked (plain_path (p0 :: rest)) st]
    /\ lineWidth st = size
    /\ globalAlpha st = opacity
    /\ saved (canvas w') = saved (canvas w)
    /\ stream w' = stream w
    /\ calls w' = calls w.
Proof.
  unfold _applyDefaultBrush, bind, set, on_ctx.
  cbn [canvas stream calls].
  match goal with
  | |- context [_applyDefaultBrush_loop rest ?w0] =>
      destruct (_applyDefaultBrush_loop_path rest w0)
        as (w1 & Hrun & Hpath & Hstate & Hsaved & Hmarks & Hstream & Hcalls)
  end.
  rewrite Hrun.
  cbn [canvas stream calls add_cmd beginPath with_state path state saved
       marks] in *.
  eexists. exists (state (canvas w1)).
  split; [reflexivity |].
  cbn [canvas stroke marks saved stream calls].
  rewrite Hpath, Hmarks, Hstate. cbn [app plain_path].
  repeat split; auto.
Qed.

(** Around a family render [m] that ends normally and keeps the stack of
    saved states, [applyBrushStroke] returns true, keeps the marks of [m]
    and hands the surface back with the state it had on entry. *)
Lemma try_block_marks (m : M unit) (c0 : Ctx) (random : nat -> R)
  (calls : nat) (w' : World) :
  let w1 :=
    mkWorld (with_state (set_globalCompositeOperation "source-over")
                        (save c0)) random calls in
  m w1 = (Normal tt, w') ->
  saved (canvas w') = saved (canvas w1) ->
  exists c',
    try_catch (on_ctx save ;;
               set (set_globalCompositeOperation "source-over") ;;
               m ;;
               on_ctx restore ;;
               ret true)%eff
              (fun _ => ret false) (mkWorld c0 random calls)
    = (Normal true, mkWorld c' (stream w') (Eff.calls w'))
    /\ marks c' = marks (canvas w')
    /\ state c' = state c0
    /\ saved c' = saved c0.
Proof.
  intros w1 Hrun Hs.
  unfold try_catch, bind, set, on_ctx. cbn [canvas stream Eff.calls].
  fold w1. rewrite Hrun.
  subst w1. cbn [canvas stream Eff.calls] in *.
  unfold restore, ret. rewrite Hs. cbn [saved save with_state].
  eexists. split; [reflexivity |].
  cbn [state saved marks]. auto.
Qed.

Lemma body_default (cur : CurrentBrush) (points : list Point)
  (color : list R) :
  type (preset cur) <> "liner" ->
  type (preset cur) <> "shader" ->
  type (preset cur) <> "specialized" ->
  applyBrushStroke_body cur points (Some color)
  = try_catch
      (on_ctx save ;;
       set (set_globalCompositeOperation "source-over") ;;
       _applyDefaultBrush points
         (Rgba (nth_error color 0) (nth_error color 1) (nth_error color 2) 1)
         (size (preset cur)) (opacity (preset cur)) ;;
       on_ctx restore ;;
       ret true)%eff
      (fun _ => ret false).
Proof.
  intros H1 H2 H3. unfold applyBrushStroke_body.
  apply String.eqb_neq in H1, H2, H3. rewrite H1, H2, H3. reflexivity.
Qed.

Lemma body_unknown_variant (cur : CurrentBrush) (points : list Point)
  (color : option (list R)) :
  type (preset cur) = "specialized" ->
  id cur <> "shader3RS" ->
  id cur <> "ombreLipOutline" ->
  id cur <> "microbladeNatural" ->
  applyBrushStroke_body cur points color
  = applyBrushStroke_body (with_type "shader" cur) points color.
Proof.
  intros Htype H1 H2 H3.
  unfold applyBrushStroke_body, _applySpecializedBrush, with_type.
  cbn [preset type size opacity spacing scatter pressureSensitivity id].
  apply String.eqb_neq in H1, H2, H3. rewrite Htype, H1, H2, H3.
  reflexivity.
Qed.

(** C3 (as the code has it). With a preset of an unrecognized family, a
    non-empty stroke is drawn as one plain stroked path through all the
    samples, of width size and alpha opacity, and the render succeeds; with
    a preset of the specialized family whose id names no variant, the
    render is that of the Shader family, dabs and not a path, and succeeds
    as well. *)
Theorem fallback_by_family :
  forall (this : t) (cur : CurrentBrush) (c0 : Ctx) (p0 : Point)
         (rest : list Point) (color : list R) (random : nat -> R)
         (calls : nat),
    currentBrush this = Some cur ->
    let b := preset cur in
    (type b <> "liner" -> type b <> "shader" -> type b <> "specialized" ->
     exists c' st,
       applyBrushStroke this (Some c0) (Some (p0 :: rest)) (Some color)
                        random calls = (true, Some c', calls)
       /\ marks c' = marks c0 ++ [Stroked (plain_path (p0 :: rest)) st]
       /\ lineWidth st = size b
       /\ globalAlpha st = opacity b
       /\ state c' = state c0)
    /\ (type b = "specialized" ->
        id cur <> "shader3RS" -> id cur <> "ombreLipOutline" ->
        id cur <> "microbladeNatural" ->
        applyBrushStroke this (Some c0) (Some (p0 :: rest)) (Some color)
                         random calls
        = applyBrushStroke (holding this (with_type "shader" cur)) (Some c0)
                           (Some (p0 :: rest)) (Some color) random calls
        /\ exists c' n,
             applyBrushStroke this (Some c0) (Some (p0 :: rest)) (Some color)
                              random calls = (true, Some c', n)
             /\ dabs c'
                = dabs c0
                  ++ mkDab (x p0) (y p0) (size b / 2) (opacity b)
                     :: shader_dabs random calls (size b) (opacity b)
                          (scatter b) (pressureSensitivity b)
                          (stamped (size b * spacing b) p0 rest)).
Proof.
  intros this cur c0 p0 rest color random calls Hcur b. subst b. split.
  - intros H1 H2 H3.
    destruct (_applyDefaultBrush_marks p0 rest
                (Rgba (nth_error color 0) (nth_error color 1)
                      (nth_error color 2) 1)
                (size (preset cur)) (opacity (preset cur))
                (mkWorld (with_state
                            (set_globalCompositeOperation "source-over")
                            (save c0)) random calls))
      as (w' & st & Hrun & Hmarks & Hwidth & Halpha & Hsaved & Hstream
          & Hcalls).
    destruct (try_block_marks _ c0 random calls w' Hrun Hsaved)
      as (c' & Htry & Hm & Hstate & _).
    exists c', st.
    split.
    + unfold applyBrushStroke.
      rewrite Hcur, (body_default cur _ color H1 H2 H3), Htry, Hcalls.
      reflexivity.
    + rewrite Hm, Hmarks. auto.
  - intros Htype H1 H2 H3.
    assert (Heq :
      applyBrushStroke this (Some c0) (Some (p0 :: rest)) (Some color)
                       random calls
      = applyBrushStroke (holding this (with_type "shader" cur)) (Some c0)
                         (Some (p0 :: rest)) (Some color) random calls).
    { unfold applyBrushStroke, holding. cbn [currentBrush].
      rewrite Hcur, (body_unknown_variant cur _ _ Htype H1 H2 H3).
      reflexivity. }
    split; [exact Heq |].
    rewrite Heq.
    destruct (_applyShaderBrush_drew p0 rest
                (Rgba (nth_error color 0) (nth_error color 1)
                      (nth_error color 2) 1)
                (size (preset cur)) (opacity (preset cur))
                (spacing (preset cur)) (scatter (preset cur))
                (pressureSensitivity (preset cur))
                (mkWorld (with_state
                            (set_globalCompositeOperation "source-over")
                            (save c0)) random calls))
      as (w' & Hrun & Hdrew).
    destruct (applyBrushStroke_normal
                (holding this (with_type "shader" cur))
                (with_type "shader" cur) c0 p0 rest color random calls
                _ w' _ _ eq_refl
                (body_shader (with_type "shader" cur) _ color eq_refl)
                Hrun Hdrew)
      as (c' & Happly & Hdabs & _).
    exists c'. eexists. split; [exact Happly | exact Hdabs].
Qed.

Lemma fallback_by_family_witness :
  (exists c' st,
      applyBrushStroke (holding constructor Sample.airbrush)
                       (Some Sample.fresh_canvas) (Some Sample.short_stroke)
                       (Some Sample.pigment) Sample.zeros 0
      = (true, Some c', 0%nat)
      /\ marks c' = [Stroked [MoveTo 0 0; LineTo 10 0] st]
      /\ lineWidth st = 1
      /\ globalAlpha st = 0.9)
  /\ (exists c' n,
         applyBrushStroke (holding constructor Sample.feather)
                          (Some Sample.fresh_canvas) (Some [Sample.origin])
                          (Some Sample.pigment) Sample.zeros 0
         = (true, Some c', n)
         /\ dabs c' = [mkDab 0 0 (3 / 2) 0.85]).
Proof.
  split.
  - destruct (proj1 (fallback_by_family
                       (holding constructor Sample.airbrush) Sample.airbrush
                       Sample.fresh_canvas (mkPoint 0 0 (Some 1))
                       [mkPoint 10 0 (Some 1)] Sample.pigment
                       Sample.zeros 0 eq_refl))
      as (c' & st & Happly & Hmarks & Hwidth & Halpha & _).
    + discriminate.
    + discriminate.
    + discriminate.
    + exists c', st. auto.
  - destruct (proj2 (fallback_by_family
                       (holding constructor Sample.feather) Sample.feather
                       Sample.fresh_canvas Sample.origin [] Sample.pigment
                       Sample.zeros 0 eq_refl))
      as (_ & c' & n & Happly & Hdabs).
    + reflexivity.
    + discriminate.
    + discriminate.
    + discriminate.
    + exists c', n. split; [exact Happly | exact Hdabs].
Defined.

(** The claim of C3 fails for the specialized family: with an id that names
    no variant the render succeeds but leaves a filled dab on the surface,
    not a stroked path. *)
Lemma unknown_variant_not_plain_path :
  exists c' n,
    applyBrushStroke (holding constructor Sample.feather)
                     (Some Sample.fresh_canvas) (Some [Sample.origin])
                     (Some Sample.pigment) Sample.zeros 0
    = (true, Some c', n)
    /\ dabs c' = [mkDab 0 0 (3 / 2) 0.85]
    /\ forall st,
         marks c'
         <> marks Sample.fresh_canvas
            ++ [Stroked (plain_path [Sample.origin]) st].
Proof.
  eexists. eexists. split; [reflexivity |].
  split; [reflexivity |].
  intros st. cbn. discriminate.
Qed.

(** * Further properties *)

(** ** The session: tier, selection, overrides *)

(** X1. [setUserSubscription] accepts exactly 'free' and 'pro'; a level it
    rejects changes nothing, a level it accepts becomes the tier, and in
    both cases the selected brush and the catalog stay as they were. *)
Theorem setUserSubscription_accepts_two_levels :
  forall (this : t) (level : string),
    let '(ok, this') := setUserSubscription this level in
    (ok = true <-> level = "free" \/ level = "pro")
    /\ (ok = true -> userSubscription this' = level)
    /\ (ok = false -> this' = this)
    /\ currentBrush this' = currentBrush this
    /\ brushPresets this' = brushPresets this.
Proof.
  intros this level. unfold setUserSubscription.
  destruct (String.eqb_spec level "free") as [Hfree | Hfree];
    destruct (String.eqb_spec level "pro") as [Hpro | Hpro];
    cbn [negb andb userSubscription currentBrush brushPresets].
  - repeat split; auto; discriminate.
  - repeat split; auto; discriminate.
  - repeat split; auto; discriminate.
  - repeat split; auto; try discriminate.
    intros [H | H]; contradiction.
Qed.

(** X2. For a category and a brush id that are not names every object
    inherits, a refused selection leaves the session as it was, the
    selected brush included, and the three refusals are told apart: an
    unknown category gives 'invalid_category', an unknown id in a known
    category 'invalid_brush', and only the subscription refusal carries an
    upgrade prompt. *)
Theorem selectBrush_refusal_keeps_session :
  forall (this : t) (category brushId reason message : string)
         (prompt : option UpgradePrompt),
    Js.inherited category = false ->
    Js.inherited brushId = false ->
    fst (selectBrush this category brushId) = Refused reason message prompt ->
    snd (selectBrush this category brushId) = this
    /\ (reason = "invalid_category"
        <-> lookup (brushPresets this) category = None)
    /\ (reason = "invalid_brush"
        <-> exists group,
              lookup (brushPresets this) category = Some group
              /\ lookup group brushId = None)
    /\ (prompt <> None <-> reason = "subscription_required").
Proof.
  intros this category brushId reason message prompt _ _.
  unfold selectBrush.
  destruct (lookup (brushPresets this) category) as [group |] eqn:Ecat.
  - destruct (lookup group brushId) as [brush |] eqn:Ebrush.
    + destruct (_ && _); cbn [fst snd]; [| discriminate].
      intros H. injection H as <- <- <-.
      split; [reflexivity |]. split; [| split].
      * split; discriminate.
      * split; [discriminate |].
        intros (g & Hg & Hnone). congruence.
      * split; [reflexivity | discriminate].
    + cbn [fst snd]. intros H. injection H as <- <- <-.
      split; [reflexivity |]. split; [| split].
      * split; discriminate.
      * split; [| reflexivity]. intros _. exists group. auto.
      * split; [intros H; contradiction | discriminate].
  - cbn [fst snd]. intros H. injection H as <- <- <-.
    split; [reflexivity |]. split; [| split].
    + split; reflexivity.
    + split; [discriminate |]. intros (g & Hg & _). discriminate.
    + split; [intros H; contradiction | discriminate].
Qed.

Lemma selectBrush_refusal_keeps_session_witness :
  snd (selectBrush Sample.with_standardShader "advanced" "microbladeNatural")
  = Sample.with_standardShader.
Proof.
  refine (proj1 (selectBrush_refusal_keeps_session
                   Sample.with_standardShader "advanced" "microbladeNatural"
                   "subscription_required"
                   "This brush requires a Pro subscription"
                   (Some (getUpgradePrompt "microbladeNatural")) _ _ _));
    reflexivity.
Defined.

(** X3. For a category and a brush id that are not names every object
    inherits, a granted selection stores a copy of the catalog entry tagged
    with the category and id it was asked under, and a later change of
    tier, accepted or not, does not take the selected brush away. *)
Theorem selection_survives_tier_change :
  forall (this : t) (category brushId level : string) (cur : CurrentBrush),
    Js.inherited category = false ->
    Js.inherited brushId = false ->
    fst (selectBrush this category brushId) = Selected cur ->
    (exists group,
        lookup (brushPresets this) category = Some group
        /\ lookup group brushId = Some (preset cur))
    /\ id cur = brushId
    /\ Brushes.category cur = category
    /\ getCurrentBrush (snd (selectBrush this category brushId)) = Some cur
    /\ getCurrentBrush
         (snd (setUserSubscription (snd (selectBrush this category brushId))
                                   level))
       = Some cur.
Proof.
  intros this category brushId level cur _ _.
  unfold selectBrush.
  destruct (lookup (brushPresets this) category) as [group |] eqn:Ecat;
    [| discriminate].
  destruct (lookup group brushId) as [brush |] eqn:Ebrush; [| discriminate].
  destruct (_ && _); cbn [fst snd]; [discriminate |].
  intros H. injection H as <-.
  cbn [preset id Brushes.category].
  split; [exists group; auto |].
  repeat split.
  unfold setUserSubscription, getCurrentBrush.
  destruct (_ && _); reflexivity.
Qed.

Lemma selection_survives_tier_change_witness :
  getCurrentBrush
    (snd (setUserSubscription Sample.with_shader3RS "free"))
  = Some (mkCurrent shader3RS "shader3RS" "advanced").
Proof.
  refine (proj2 (proj2 (proj2 (proj2
            (selection_survives_tier_change
               (snd (setUserSubscription constructor "pro"))
               "advanced" "shader3RS" "free"
               (mkCurrent shader3RS "shader3RS" "advanced") _ _ _)))));
    reflexivity.
Defined.

Lemma lookup_basic_free (brushId : string) (b : Brush) :
  lookup [ ("standardLiner", standardLiner);
           ("standardShader", standardShader);
           ("powderBrow", powderBrow) ] brushId = Some b ->
  subscription b = "free".
Proof.
  cbn [lookup].
  destruct (String.eqb brushId "standardLiner");
    [intros H; injection H as <-; reflexivity |].
  destruct (String.eqb brushId "standardShader");
    [intros H; injection H as <-; reflexivity |].
  destruct (String.eqb brushId "powderBrow");
    [intros H; injection H as <-; reflexivity | discriminate].
Qed.

Lemma lookup_advanced_pro (brushId : string) (b : Brush) :
  lookup [ ("shader3RS", shader3RS);
           ("ombreLipOutline", ombreLipOutline);
           ("microbladeNatural", microbladeNatural) ] brushId = Some b ->
  subscription b = "pro" /\ getUpgradePrompt brushId <> prompts_default.
Proof.
  cbn [lookup].
  destruct (String.eqb_spec brushId "shader3RS") as [-> | _];
    [intros H; injection H as <-; split; [reflexivity | discriminate] |].
  destruct (String.eqb_spec brushId "ombreLipOutline") as [-> | _];
    [intros H; injection H as <-; split; [reflexivity | discriminate] |].
  destruct (String.eqb_spec brushId "microbladeNatural") as [-> | _];
    [intros H; injection H as <-; split; [reflexivity | discriminate]
    | discriminate].
Qed.

(** X4. What [getAvailableBrushes] lists is what [selectBrush] grants: with
    the catalog in place, every brush listed under [basic] or [advanced] is
    granted under that category with the listed values, and every brush
    listed under [locked] is refused for the subscription reason with a
    prompt of its own, not the generic one.  A pro session gets [advanced]
    and no [locked]; any other session gets, under [locked], the advanced
    group of the catalog in full and no [advanced]. *)
Theorem getAvailableBrushes_agrees_with_selectBrush :
  forall this : t,
    brushPresets this = presets ->
    exists av,
      getAvailableBrushes this = Normal av
      /\ lookup presets "basic" = Some (basic av)
      /\ (forall brushId b,
             lookup (basic av) brushId = Some b ->
             fst (selectBrush this "basic" brushId)
             = Selected (mkCurrent b brushId "basic"))
      /\ (forall group brushId b,
             advanced av = Some group ->
             lookup group brushId = Some b ->
             fst (selectBrush this "advanced" brushId)
             = Selected (mkCurrent b brushId "advanced"))
      /\ (forall group brushId b,
             locked av = Some group ->
             lookup group brushId = Some b ->
             fst (selectBrush this "advanced" brushId)
             = Refused "subscription_required"
                       "This brush requires a Pro subscription"
                       (Some (getUpgradePrompt brushId))
             /\ getUpgradePrompt brushId <> prompts_default)
      /\ (userSubscription this = "pro" ->
          advanced av = lookup presets "advanced" /\ locked av = None)
      /\ (userSubscription this <> "pro" ->
          advanced av = None /\ locked av = lookup presets "advanced").
Proof.
  intros this Hcat.
  unfold getAvailableBrushes, selectBrush. rewrite Hcat.
  assert (Hbasic : forall brushId b,
             lookup [ ("standardLiner", standardLiner);
                      ("standardShader", standardShader);
                      ("powderBrow", powderBrow) ] brushId = Some b ->
             fst (match lookup
                          [ ("standardLiner", standardLiner);
                            ("standardShader", standardShader);
                            ("powderBrow", powderBrow) ] brushId with
                  | Some brush =>
                      if String.eqb (subscription brush) "pro"
                         && negb (String.eqb (userSubscription this) "pro")
                      then
                        (Refused "subscription_required"
                                 "This brush requires a Pro subscription"
                                 (Some (getUpgradePrompt brushId)), this)
                      else
                        (Selected (mkCurrent brush brushId "basic"),
                         mkBrushes (Some (mkCurrent brush brushId "basic"))
                                   presets (userSubscription this))
                  | None =>
                      (Refused "invalid_brush"
                               ("Invalid brush: " ++ brushId)%string None,
                       this)
                  end)
             = Selected (mkCurrent b brushId "basic")).
  { intros brushId b Hb. rewrite Hb, (lookup_basic_free _ _ Hb).
    reflexivity. }
  destruct (String.eqb_spec (userSubscription this) "pro") as [Hpro | Hfree].
  - eexists. split; [reflexivity |].
    cbn [basic advanced locked spread lookup String.eqb Ascii.eqb Bool.eqb
         presets].
    split; [reflexivity |]. split; [exact Hbasic |]. split; [| split].
    + intros group brushId b Hgroup Hb. injection Hgroup as <-.
      destruct (lookup_advanced_pro _ _ Hb) as [Hsub _].
      cbn [lookup] in Hb. rewrite Hb, Hsub. reflexivity.
    + intros group brushId b Hgroup. discriminate.
    + split; [intros _; split; reflexivity | intros H; contradiction].
  - eexists. split; [reflexivity |].
    cbn [basic advanced locked spread lookup String.eqb Ascii.eqb Bool.eqb
         presets fold_left assign].
    split; [reflexivity |]. split; [exact Hbasic |]. split; [| split].
    + intros group brushId b Hgroup. discriminate.
    + intros group brushId b Hgroup Hb. injection Hgroup as <-.
      destruct (lookup_advanced_pro _ _ Hb) as [Hsub Hown].
      cbn [lookup] in Hb. rewrite Hb, Hsub.
      split; [reflexivity | exact Hown].
    + split; [intros H; contradiction | intros _; split; reflexivity].
Qed.

Lemma getAvailableBrushes_agrees_with_selectBrush_witness :
  exists av,
    getAvailableBrushes constructor = Normal av
    /\ advanced av = None
    /\ locked av = lookup presets "advanced".
Proof.
  destruct (getAvailableBrushes_agrees_with_selectBrush constructor eq_refl)
    as (av & Hget & _ & _ & _ & _ & _ & Hfree).
  exists av. split; [exact Hget |].
  apply Hfree. discriminate.
Defined.

(** X5. [isFeatureAvailable] fails closed for a session that is not pro:
    it has exactly the features the table marks 'free'.  For a pro session
    it does not: besides every feature of the table, it reports available
    every name the table inherits, 'constructor' for one.  Nothing else is
    ever available, and a pro session has whatever another session has. *)
Theorem isFeatureAvailable_by_tier :
  forall (this this' : t) (featureId : string),
    (isFeatureAvailable this featureId = true ->
     lookup features featureId <> None \/ Js.inherited featureId = true)
    /\ (userSubscription this <> "pro" ->
        (isFeatureAvailable this featureId = true
         <-> lookup features featureId = Some "free"))
    /\ (userSubscription this' = "pro" ->
        (isFeatureAvailable this' featureId = true
         <-> lookup features featureId <> None
             \/ Js.inherited featureId = true)
        /\ (isFeatureAvailable this featureId = true ->
            isFeatureAvailable this' featureId = true)).
Proof.
  intros this this' featureId. unfold isFeatureAvailable.
  destruct (lookup features featureId) as [required |].
  - split; [intros _; left; discriminate |]. split.
    + intros Hfree. apply String.eqb_neq in Hfree. rewrite Hfree.
      destruct (String.eqb_spec required "free") as [-> | Hne].
      * split; auto.
      * split; [discriminate |]. intros H. injection H as H. contradiction.
    + intros Hpro. rewrite Hpro. cbn [String.eqb Ascii.eqb Bool.eqb].
      split.
      * destruct (String.eqb required "free"); split; auto;
          intros _; left; discriminate.
      * destruct (String.eqb required "free"); auto.
  - destruct (Js.inherited featureId).
    + split; [intros _; right; reflexivity |]. split.
      * intros Hfree. apply String.eqb_neq in Hfree. rewrite Hfree.
        split; discriminate.
      * intros Hpro. rewrite Hpro. cbn [String.eqb Ascii.eqb Bool.eqb].
        split; [| reflexivity].
        split; [intros _; right; reflexivity | reflexivity].
  + split; [discriminate |]. split.
      * intros _. split; discriminate.
      * intros _. split; [| discriminate].
        split; [discriminate |].
        intros [H | H]; [contradiction | discriminate].
Qed.

(** ** Overrides *)

Lemma set_key_unknown (cur : CurrentBrush) (key : string) (value : JsValue) :
  ~ In key brush_keys -> set_key cur key value = Some cur.
Proof.
  intros Hout. unfold set_key.
  repeat match goal with
         | |- context [String.eqb key ?k] =>
             destruct (String.eqb_spec key k) as [-> | _];
             [exfalso; apply Hout; cbn; tauto |]
         end.
  reflexivity.
Qed.

Lemma apply_settings_unknown (cur : CurrentBrush)
  (settings : list (string * JsValue)) :
  Forall (fun entry => ~ In (fst entry) brush_keys) settings ->
  apply_settings cur settings = Some cur.
Proof.
  induction 1 as [| [key value] settings Hkey Hrest IH];
    cbn [apply_settings]; [reflexivity |].
  cbn [fst] in Hkey. rewrite (set_key_unknown cur key value Hkey).
  exact IH.
Qed.

(** X6. [updateCurrentBrushSettings] with no brush selected returns false
    and changes nothing; with a brush selected it returns true, and
    settings whose keys are not fields of the brush leave every field of the
    brush as it was.  It never touches the catalog or the tier. *)
Theorem updateCurrentBrushSettings_ignores_unknown_keys :
  forall (this : t) (settings : list (string * JsValue)),
    (currentBrush this = None ->
     updateCurrentBrushSettings this settings = Some (false, this))
    /\ (forall ok this',
           updateCurrentBrushSettings this settings = Some (ok, this') ->
           (ok = true <-> currentBrush this <> None)
           /\ brushPresets this' = brushPresets this
           /\ userSubscription this' = userSubscription this)
    /\ (Forall (fun entry => ~ In (fst entry) brush_keys) settings ->
        forall cur,
          currentBrush this = Some cur ->
          exists this',
            updateCurrentBrushSettings this settings = Some (true, this')
            /\ currentBrush this' = Some cur).
Proof.
  intros this settings. unfold updateCurrentBrushSettings.
  split; [intros ->; reflexivity |]. split.
  - intros ok this'.
    destruct (currentBrush this) as [cur |].
    + destruct (apply_settings cur settings) as [cur' |];
        cbn [option_map]; [| discriminate].
      intros H. injection H as <- <-.
      cbn [brushPresets userSubscription].
      repeat split; auto; discriminate.
    + intros H. injection H as <- <-.
      repeat split; auto; try discriminate.
  - intros Hunknown cur ->.
    rewrite (apply_settings_unknown cur settings Hunknown).
    cbn [option_map]. eexists. split; reflexivity.
Qed.

(** X7. Overrides live on the selected copy only: after any
    [updateCurrentBrushSettings], selecting a brush gives the answer it
    gave before, and a granted selection puts the catalog values back in
    place of the overridden ones. *)
Theorem reselect_discards_overrides :
  forall (this this' : t) (settings : list (string * JsValue)) (ok : bool)
         (category brushId : string),
    updateCurrentBrushSettings this settings = Some (ok, this') ->
    fst (selectBrush this' category brushId)
    = fst (selectBrush this category brushId)
    /\ (forall cur,
           fst (selectBrush this category brushId) = Selected cur ->
           selectBrush this' category brushId
           = selectBrush this category brushId).
Proof.
  intros this this' settings ok category brushId Hupdate.
  assert (Hsame : brushPresets this' = brushPresets this
                  /\ userSubscription this' = userSubscription this).
  { unfold updateCurrentBrushSettings in Hupdate.
    destruct (currentBrush this) as [cur |].
    - destruct (apply_settings cur settings); cbn [option_map] in Hupdate;
        [| discriminate].
      injection Hupdate as <- <-. split; reflexivity.
    - injection Hupdate as <- <-. split; reflexivity. }
  destruct Hsame as [Hcat Htier].
  unfold selectBrush. rewrite Hcat, Htier.
  destruct (lookup (brushPresets this) category) as [group |];
    [| split; [reflexivity | discriminate]].
  destruct (lookup group brushId) as [brush |];
    [| split; [reflexivity | discriminate]].
  destruct (_ && _); split; try reflexivity; discriminate.
Qed.

Lemma reselect_discards_overrides_witness :
  selectBrush
    (mkBrushes
       (Some (mkCurrent
                (mkBrush "Standard Shader" "shader" 7 0.8 0.15 0.1 0.8 "free")
                "standardShader" "basic"))
       presets "free")
    "basic" "standardShader"
  = selectBrush Sample.with_standardShader "basic" "standardShader".
Proof.
  refine (proj2 (reselect_discards_overrides
                   Sample.with_standardShader _ [("size", JsNumber 7)] true
                   "basic" "standardShader" _)
                (mkCurrent standardShader "standardShader" "basic") _).
  - reflexivity.
  - reflexivity.
Defined.



(** ** The path families *)

Lemma _applyLinerBrush_loop_run (size pressureSensitivity : R)
  (rest : list Point) :
  forall w : World,
  exists w',
    _applyLinerBrush_loop size pressureSensitivity rest w = (Normal tt, w')
    /\ path (canvas w')
       = path (canvas w) ++ map (fun p => LineTo (x p) (y p)) rest
    /\ state (canvas w')
       = match rest with
         | [] => state (canvas w)
         | p :: rest' =>
             set_lineWidth
               (size * pressureFormula pressureSensitivity
                         (pressure_of (last rest' p)))
               (state (canvas w))
         end
    /\ marked w w' [].
Proof.
  induction rest as [| p rest IH]; intros w.
  - exists w. split; [reflexivity |].
    cbn [map]. rewrite app_nil_r. unfold marked. rewrite app_nil_r. auto 10.
  - cbn [_applyLinerBrush_loop].
    unfold bind at 1. unfold set at 1. unfold on_ctx at 1.
    unfold bind at 1. unfold on_ctx at 1.
    cbn [canvas stream calls].
    match goal with
    | |- context [_applyLinerBrush_loop _ _ rest ?w0] =>
        destruct (IH w0) as (w' & Hrun & Hpath & Hstate & Hm & Hs & Hr & Hc)
    end.
    exists w'. split; [exact Hrun |].
    cbn [canvas stream calls add_cmd with_state path state saved marks] in *.
    split; [rewrite Hpath, <- app_assoc; reflexivity |].
    split.
    + rewrite Hstate. destruct rest as [| q rest'].
      * reflexivity.
      * rewrite (last_cons _ rest' q p). reflexivity.
    + unfold marked. cbn [canvas stream calls]. auto.
Qed.

Lemma _applyLinerBrush_run (p0 : Point) (rest : list Point)
  (colorStr : Style) (size opacity spacing scatter pressureSensitivity : R)
  (w : World) :
  exists w' st,
    _applyLinerBrush (p0 :: rest) colorStr size opacity spacing scatter
                     pressureSensitivity w = (Normal tt, w')
    /\ marked w w' [Stroked (plain_path (p0 :: rest)) st]
    /\ globalAlpha st = opacity
    /\ lineWidth st = liner_width size pressureSensitivity rest
    /\ strokeStyle st = colorStr.
Proof.
  unfold _applyLinerBrush, bind, set, on_ctx.
  cbn [canvas stream calls].
  match goal with
  | |- context [_applyLinerBrush_loop _ _ rest ?w0] =>
      destruct (_applyLinerBrush_loop_run size pressureSensitivity rest w0)
        as (w1 & Hrun & Hpath & Hstate & Hm & Hs & Hr & Hc)
  end.
  rewrite Hrun.
  cbn [canvas stream calls add_cmd beginPath with_state path state saved
       marks] in *.
  eexists. exists (state (canvas w1)).
  split; [reflexivity |].
  unfold marked. cbn [canvas stroke marks saved stream calls].
  rewrite Hpath, Hm, Hstate, app_nil_r. cbn [app plain_path].
  destruct rest as [| p rest']; cbn [liner_width]; auto 10.
Qed.

Lemma ltb_true (a b : R) : a < b -> Js.ltb a b = true.
Proof.
  intros H. unfold Js.ltb. destruct (Rlt_dec a b); [reflexivity | lra].
Qed.

(** The gradient-outline loop, entered with the path at a lone move to
    [prev] and with [i] the number of the first sample of [rest]: every
    sample closes one segment, stroked as a path of its own. *)
Lemma _applyOmbreLipOutline_loop_run (r g b : option R)
  (size opacity pressureSensitivity : R) (length : nat)
  (rest : list Point) :
  forall (i : nat) (prev : Point) (w : World),
    (i + List.length rest = length)%nat ->
    path (canvas w) = [MoveTo (x prev) (y prev)] ->
    exists w' ms,
      _applyOmbreLipOutline_loop r g b size opacity pressureSensitivity
        length i rest w = (Normal tt, w')
      /\ marked w w' ms
      /\ Forall2 strokes_segment (segments prev rest) ms.
Proof.
  induction rest as [| p rest IH]; intros i prev w Hlen Hpath.
  - exists w, []. split; [reflexivity |]. split; [| constructor].
    unfold marked. rewrite app_nil_r. auto.
  - cbn [List.length] in Hlen.
    remember rest as tail eqn:Etail in |- *.
    cbn [_applyOmbreLipOutline_loop segments].
    unfold bind, set, on_ctx. cbn [canvas stream calls].
    subst tail.
    destruct rest as [| q rest'].
    + destruct (Js.ltb (INR i) (INR length - 1));
        unfold ret; cbn [canvas stream calls _applyOmbreLipOutline_loop];
        (eexists; eexists; split; [reflexivity |]);
        (split;
         [ unfold marked;
           cbn [canvas stream calls marks saved stroke add_cmd beginPath
                with_state];
           auto
         | cbn [segments]; constructor; [| constructor];
           eexists;
           cbn [path add_cmd with_state stroke beginPath fst snd];
           rewrite Hpath; reflexivity ]).
    + rewrite ltb_true.
      2:{ subst length. cbn [List.length].
          rewrite plus_INR, !S_INR.
          pose proof (pos_INR (List.length rest')). lra. }
      cbn [canvas stream calls].
      match goal with
      | |- context [_applyOmbreLipOutline_loop _ _ _ _ _ _ _ _ _ ?w0] =>
          destruct (IH (S i) p w0) as (w' & ms & Hrun & Hmarked & Hsegs)
      end.
      * cbn [List.length] in *. lia.
      * reflexivity.
      * rewrite Hrun. eexists. eexists. split; [reflexivity |].
        destruct Hmarked as (Hm & Hs & Hr & Hc).
        cbn [canvas stream calls marks saved stroke add_cmd beginPath
             with_state] in *.
        split.
        -- unfold marked. rewrite Hm, <- app_assoc. cbn [app]. auto.
        -- constructor; [| exact Hsegs].
           eexists. cbn [fst snd path add_cmd with_state].
           rewrite Hpath. reflexivity.
Qed.

Lemma _applyOmbreLipOutline_run (p0 p1 : Point) (rest : list Point)
  (colorStr : Style) (size opacity spacing pressureSensitivity : R)
  (w : World) :
  exists w' ms,
    _applyOmbreLipOutline (p0 :: p1 :: rest) colorStr size opacity spacing
                          pressureSensitivity w = (Normal tt, w')
    /\ marked w w' ms
    /\ Forall2 strokes_segment (segments p0 (p1 :: rest)) ms.
Proof.
  unfold _applyOmbreLipOutline.
  destruct (baseColor colorStr) as [[r g] b].
  unfold bind, set, on_ctx. cbn [canvas stream calls].
  match goal with
  | |- context [_applyOmbreLipOutline_loop _ _ _ _ _ _ ?n ?i ?l ?w0] =>
      destruct (_applyOmbreLipOutline_loop_run r g b size opacity
                  pressureSensitivity n l i p0 w0)
        as (w' & ms & Hrun & (Hm & Hs & Hr & Hc) & Hsegs)
  end.
  - cbn [List.length]. lia.
  - reflexivity.
  - rewrite Hrun. exists w', ms. split; [reflexivity |].
    cbn [canvas stream calls marks saved add_cmd beginPath with_state] in *.
    split; [unfold marked; auto | exact Hsegs].
Qed.

Lemma _applyMicrobladeNatural_loop_frame
  (size pressureSensitivity totalLength : R) (rest : list Point) :
  forall (currentLength : R) (prevPoint : Point) (w : World),
  exists w',
    _applyMicrobladeNatural_loop size pressureSensitivity totalLength
      currentLength prevPoint rest w = (Normal tt, w')
    /\ path (canvas w')
       = path (canvas w) ++ map (fun p => LineTo (x p) (y p)) rest
    /\ globalAlpha (state (canvas w')) = globalAlpha (state (canvas w))
    /\ marked w w' [].
Proof.
  induction rest as [| p rest IH]; intros currentLength prevPoint w.
  - exists w. split; [reflexivity |].
    cbn [map]. rewrite app_nil_r. unfold marked. rewrite app_nil_r. auto 10.
  - cbn [_applyMicrobladeNatural_loop].
    unfold bind at 1. unfold set at 1. unfold on_ctx at 1.
    unfold bind at 1. unfold on_ctx at 1.
    cbn [canvas stream calls].
    match goal with
    | |- context [_applyMicrobladeNatural_loop _ _ _ ?c ?pp rest ?w0] =>
        destruct (IH c pp w0)
          as (w' & Hrun & Hpath & Halpha & Hm & Hs & Hr & Hc)
    end.
    exists w'. split; [exact Hrun |].
    cbn [canvas stream calls add_cmd with_state path state saved marks
         globalAlpha set_lineWidth] in *.
    split; [rewrite Hpath, <- app_assoc; reflexivity |].
    split; [exact Halpha |].
    unfold marked. cbn [canvas stream calls]. auto.
Qed.

Lemma _applyMicrobladeNatural_run (p0 p1 : Point) (rest : list Point)
  (colorStr : Style) (size opacity spacing pressureSensitivity : R)
  (w : World) :
  exists w' st,
    _applyMicrobladeNatural (p0 :: p1 :: rest) colorStr size opacity spacing
                            pressureSensitivity w = (Normal tt, w')
    /\ marked w w' [Stroked (plain_path (p0 :: p1 :: rest)) st]
    /\ globalAlpha st = opacity
    /\ lineWidth st
       = microblade_width size pressureSensitivity p0 (p1 :: rest)
                          (List.length (p1 :: rest)) w.
Proof.
  unfold _applyMicrobladeNatural, bind, set, on_ctx.
  cbn [canvas stream calls].
  match goal with
  | |- context [_applyMicrobladeNatural_loop _ _ ?t ?c ?pp ?l ?w0] =>
      destruct (_applyMicrobladeNatural_loop_frame size pressureSensitivity
                  t l c pp w0)
        as (w1 & Hrun & Hpath & Halpha & Hm & Hs & Hr & Hc);
      destruct (_applyMicrobladeNatural_loop_width size pressureSensitivity
                  t rest c pp p1 w0) as (w2 & Hrun2 & Hwidth);
      destruct (_applyMicrobladeNatural_loop_width size pressureSensitivity
                  t rest c pp p1 w) as (w3 & Hrun3 & Hwidth3)
  end.
  rewrite Hrun.
  assert (w2 = w1) by congruence. subst w2.
  eexists. exists (state (canvas w1)).
  split; [reflexivity |].
  cbn [canvas stream calls add_cmd beginPath with_state path state saved
       marks globalAlpha] in *.
  split.
  - unfold marked. cbn [canvas stroke marks saved stream calls].
    rewrite Hpath, Hm, app_nil_r. cbn [app plain_path]. auto.
  - split; [exact Halpha |].
    rewrite Hwidth. unfold microblade_width, surface_after.
    rewrite firstn_all, Hrun3. cbn [snd]. rewrite Hwidth3. reflexivity.
Qed.

(** ** The public entry, for every family *)

Lemma body_family (cur : CurrentBrush) (points : list Point)
  (color : list R) :
  applyBrushStroke_body cur points (Some color)
  = try_catch
      (on_ctx save ;;
       set (set_globalCompositeOperation "source-over") ;;
       family_render cur points
         (Rgba (nth_error color 0) (nth_error color 1) (nth_error color 2) 1) ;;
       on_ctx restore ;;
       ret true)%eff
      (fun _ => ret false).
Proof. reflexivity. Qed.

Lemma drew_saved (w w' : World) (ds : list Dab) (n : nat) :
  drew w w' ds n -> saved (canvas w') = saved (canvas w).
Proof. intros (_ & _ & Hs & _). exact Hs. Qed.

Lemma marked_saved (w w' : World) (ms : list Mark) :
  marked w w' ms -> saved (canvas w') = saved (canvas w).
Proof. intros (_ & Hs & _). exact Hs. Qed.

Lemma marked_refl (w : World) : marked w w [].
Proof. unfold marked. rewrite app_nil_r. auto. Qed.

(** Whatever the selected brush, the render of a non-empty stroke ends
    normally and keeps the stack of saved states. *)
Lemma family_render_run (cur : CurrentBrush) (p0 : Point)
  (rest : list Point) (colorStr : Style) (w : World) :
  exists w',
    family_render cur (p0 :: rest) colorStr w = (Normal tt, w')
    /\ saved (canvas w') = saved (canvas w).
Proof.
  unfold family_render, _applySpecializedBrush.
  set (b := preset cur).
  destruct (String.eqb (type b) "liner").
  { destruct (_applyLinerBrush_run p0 rest colorStr (size b) (opacity b)
                (spacing b) (scatter b) (pressureSensitivity b) w)
      as (w' & st & Hrun & Hm & _).
    exists w'. split; [exact Hrun | exact (marked_saved _ _ _ Hm)]. }
  assert (Hshader :
    exists w',
      _applyShaderBrush (p0 :: rest) colorStr (size b) (opacity b)
        (spacing b) (scatter b) (pressureSensitivity b) w = (Normal tt, w')
      /\ saved (canvas w') = saved (canvas w)).
  { destruct (_applyShaderBrush_drew p0 rest colorStr (size b) (opacity b)
                (spacing b) (scatter b) (pressureSensitivity b) w)
      as (w' & Hrun & Hd).
    exists w'. split; [exact Hrun | exact (drew_saved _ _ _ _ Hd)]. }
  destruct (String.eqb (type b) "shader"); [exact Hshader |].
  destruct (String.eqb (type b) "specialized").
  - destruct (String.eqb (id cur) "shader3RS").
    { destruct (_apply3RSShader_drew p0 rest colorStr (size b) (opacity b)
                  (spacing b) (scatter b) (pressureSensitivity b) w)
        as (w' & Hrun & Hd).
      exists w'. split; [exact Hrun | exact (drew_saved _ _ _ _ Hd)]. }
    destruct (String.eqb (id cur) "ombreLipOutline").
    { destruct rest as [| p1 rest].
      - exists w. split; reflexivity.
      - destruct (_applyOmbreLipOutline_run p0 p1 rest colorStr (size b)
                    (opacity b) (spacing b) (pressureSensitivity b) w)
          as (w' & ms & Hrun & Hm & _).
        exists w'. split; [exact Hrun | exact (marked_saved _ _ _ Hm)]. }
    destruct (String.eqb (id cur) "microbladeNatural"); [| exact Hshader].
    destruct rest as [| p1 rest].
    + exists w. split; reflexivity.
    + destruct (_applyMicrobladeNatural_run p0 p1 rest colorStr (size b)
                  (opacity b) (spacing b) (pressureSensitivity b) w)
        as (w' & st & Hrun & Hm & _).
      exists w'. split; [exact Hrun | exact (marked_saved _ _ _ Hm)].
  - destruct (_applyDefaultBrush_marks p0 rest colorStr (size b) (opacity b)
                w) as (w' & st & Hrun & _ & _ & _ & Hs & _).
    exists w'. split; [exact Hrun | exact Hs].
Qed.

(** X9. A render that succeeds hands the surface back as it found it:
    whatever brush is selected, [applyBrushStroke] on a surface, a
    non-empty stroke and a colour returns true, and the drawing state and
    the stack of saved states are afterwards what they were before. *)
Theorem applyBrushStroke_success_restores :
  forall (this : t) (cur : CurrentBrush) (c0 : Ctx) (p0 : Point)
         (rest : list Point) (color : list R) (random : nat -> R)
         (calls : nat),
    currentBrush this = Some cur ->
    exists c' n,
      applyBrushStroke this (Some c0) (Some (p0 :: rest)) (Some color)
                       random calls = (true, Some c', n)
      /\ state c' = state c0
      /\ saved c' = saved c0.
Proof.
  intros this cur c0 p0 rest color random calls Hcur.
  destruct (family_render_run cur p0 rest
              (Rgba (nth_error color 0) (nth_error color 1)
                    (nth_error color 2) 1)
              (mkWorld (with_state
                          (set_globalCompositeOperation "source-over")
                          (save c0)) random calls))
    as (w' & Hrun & Hsaved).
  destruct (try_block_marks _ c0 random calls w' Hrun Hsaved)
    as (c' & Htry & _ & Hstate & Hs).
  exists c', (Eff.calls w'). split; [| split; assumption].
  unfold applyBrushStroke. rewrite Hcur, body_family, Htry. reflexivity.
Qed.

Lemma applyBrushStroke_success_restores_witness :
  exists c' n,
    applyBrushStroke Sample.with_standardLiner (Some Sample.multiply_canvas)
                     (Some Sample.zigzag) (Some Sample.pigment)
                     Sample.zeros 0 = (true, Some c', n)
    /\ state c' = Sample.multiply_state
    /\ saved c' = [].
Proof.
  exact (applyBrushStroke_success_restores
           Sample.with_standardLiner
           (mkCurrent standardLiner "standardLiner" "basic")
           Sample.multiply_canvas (mkPoint 0 0 (Some 1))
           [mkPoint 14 0 (Some 1); mkPoint 20 0 (Some 1);
            mkPoint 5 0 (Some 1)]
           Sample.pigment Sample.zeros 0 eq_refl).
Defined.

(** X10. [applyBrushStroke] returns true exactly when it is given a
    surface, a non-empty stroke and a colour while a brush is selected; a
    call that returns false has added no mark to the surface and has drawn
    no random number. *)
Theorem applyBrushStroke_true_iff_inputs_present :
  forall (this : t) (ctx : option Ctx) (points : option (list Point))
         (color : option (list R)) (random : nat -> R) (calls : nat),
    let result := applyBrushStroke this ctx points color random calls in
    (fst (fst result) = true
     <-> ctx <> None
         /\ (exists p0 rest, points = Some (p0 :: rest))
         /\ currentBrush this <> None
         /\ color <> None)
    /\ (fst (fst result) = false ->
        snd result = calls
        /\ option_map marks (snd (fst result)) = option_map marks ctx).
Proof.
  intros this ctx points color random calls result. subst result.
  destruct ctx as [c0 |];
    [| split; [split; [discriminate | intros (H & _); contradiction]
              | intros _; split; reflexivity]].
  destruct points as [[| p0 rest] |];
    [ split; [split; [discriminate | intros (_ & (? & ? & H) & _);
                                      discriminate]
             | intros _; split; reflexivity]
    |
    | split; [split; [discriminate | intros (_ & (? & ? & H) & _);
                                      discriminate]
             | intros _; split; reflexivity] ].
  destruct (currentBrush this) as [cur |] eqn:Hcur.
  - destruct color as [color |].
    + destruct (applyBrushStroke_success_restores this cur c0 p0 rest color
                  random calls Hcur) as (c' & n & Happly & _).
      rewrite Happly. cbn [fst snd].
      split; [| discriminate].
      split; [| reflexivity]. intros _.
      repeat split; try discriminate. eauto.
    + unfold applyBrushStroke. rewrite Hcur. cbn [fst snd option_map].
      split; [| intros _; split; reflexivity].
      split; [discriminate |]. intros (_ & _ & _ & H). contradiction.
  - unfold applyBrushStroke. rewrite Hcur. cbn [fst snd option_map].
    split; [| intros _; split; reflexivity].
    split; [discriminate |]. intros (_ & _ & H & _). contradiction.
Qed.

Lemma applyBrushStroke_marked (this : t) (cur : CurrentBrush) (c0 : Ctx)
  (p0 : Point) (rest : list Point) (color : list R) (random : nat -> R)
  (calls : nat) (w' : World) (ms : list Mark) :
  let w1 :=
    mkWorld (with_state (set_globalCompositeOperation "source-over")
                        (save c0)) random calls in
  currentBrush this = Some cur ->
  family_render cur (p0 :: rest)
    (Rgba (nth_error color 0) (nth_error color 1) (nth_error color 2) 1) w1
  = (Normal tt, w') ->
  marked w1 w' ms ->
  exists c',
    applyBrushStroke this (Some c0) (Some (p0 :: rest)) (Some color)
                     random calls = (true, Some c', calls)
    /\ marks c' = marks c0 ++ ms
    /\ state c' = state c0
    /\ saved c' = saved c0.
Proof.
  intros w1 Hcur Hrun (Hm & Hs & Hr & Hc).
  destruct (try_block_marks _ c0 random calls w' Hrun Hs)
    as (c' & Htry & Hmarks & Hstate & Hsaved).
  exists c'. split.
  - unfold applyBrushStroke. rewrite Hcur, body_family, Htry, Hc.
    reflexivity.
  - rewrite Hmarks, Hm. auto.
Qed.

(** X11. The Liner family strokes one path through all the samples, with
    the preset opacity as alpha and the given colour; the line width in
    force is the one set last, that of the last sample,
    size*(1 + (pressure - 0.5)*pressureSensitivity), or size itself when the
    stroke has a single sample, whose path is then a lone move.  It draws
    no random number. *)
Theorem liner_strokes_one_path :
  forall (this : t) (cur : CurrentBrush) (c0 : Ctx) (p0 : Point)
         (rest : list Point) (color : list R) (random : nat -> R)
         (calls : nat),
    currentBrush this = Some cur ->
    type (preset cur) = "liner" ->
    let b := preset cur in
    exists c' st,
      applyBrushStroke this (Some c0) (Some (p0 :: rest)) (Some color)
                       random calls = (true, Some c', calls)
      /\ marks c' = marks c0 ++ [Stroked (plain_path (p0 :: rest)) st]
      /\ globalAlpha st = opacity b
      /\ strokeStyle st
         = Rgba (nth_error color 0) (nth_error color 1) (nth_error color 2) 1
      /\ lineWidth st
         = match rest with
           | [] => size b
           | p :: rest' =>
               size b * (1 + (pressure_of (last rest' p) - 0.5)
                             * pressureSensitivity b)
           end.
Proof.
  intros this cur c0 p0 rest color random calls Hcur Htype b. subst b.
  destruct (_applyLinerBrush_run p0 rest
              (Rgba (nth_error color 0) (nth_error color 1)
                    (nth_error color 2) 1)
              (size (preset cur)) (opacity (preset cur))
              (spacing (preset cur)) (scatter (preset cur))
              (pressureSensitivity (preset cur))
              (mkWorld (with_state
                          (set_globalCompositeOperation "source-over")
                          (save c0)) random calls))
    as (w' & st & Hrun & Hmarked & Halpha & Hwidth & Hstyle).
  destruct (applyBrushStroke_marked this cur c0 p0 rest color random calls
              w' [Stroked (plain_path (p0 :: rest)) st] Hcur)
    as (c' & Happly & Hmarks & _); [| exact Hmarked |].
  - unfold family_render. rewrite Htype. exact Hrun.
  - exists c', st. repeat split; assumption.
Qed.

Lemma liner_strokes_one_path_witness :
  exists c' st,
    applyBrushStroke Sample.with_standardLiner (Some Sample.fresh_canvas)
                     (Some Sample.short_stroke) (Some [0; 0; 0])
                     Sample.zeros 0 = (true, Some c', 0%nat)
    /\ marks c' = [Stroked [MoveTo 0 0; LineTo 10 0] st]
    /\ globalAlpha st = 0.9
    /\ lineWidth st = 1.35.
Proof.
  destruct (liner_strokes_one_path
              Sample.with_standardLiner
              (mkCurrent standardLiner "standardLiner" "basic")
              Sample.fresh_canvas (mkPoint 0 0 (Some 1))
              [mkPoint 10 0 (Some 1)] [0; 0; 0] Sample.zeros 0
              eq_refl eq_refl)
    as (c' & st & Happly & Hmarks & Halpha & _ & Hwidth).
  exists c', st. split; [exact Happly |]. split; [exact Hmarks |].
  split; [exact Halpha |].
  rewrite Hwidth. cbn [last preset size pressureSensitivity standardLiner].
  rewrite pressure_of_one. lra.
Defined.

(** X12. The gradient outline draws each segment as a path of its own: for
    a stroke of two samples or more it leaves one stroked mark per pair of
    consecutive samples, in order, each a move to the first of the pair and
    a line to the second; a single-sample stroke is a no-op that still
    returns true.  It draws no random number. *)
Theorem ombre_strokes_each_segment :
  forall (this : t) (cur : CurrentBrush) (c0 : Ctx) (p0 : Point)
         (rest : list Point) (color : list R) (random : nat -> R)
         (calls : nat),
    currentBrush this = Some cur ->
    type (preset cur) = "specialized" ->
    id cur = "ombreLipOutline" ->
    exists c' ms,
      applyBrushStroke this (Some c0) (Some (p0 :: rest)) (Some color)
                       random calls = (true, Some c', calls)
      /\ marks c' = marks c0 ++ ms
      /\ Forall2 strokes_segment (segments p0 rest) ms
      /\ List.length ms = List.length rest.
Proof.
  intros this cur c0 p0 rest color random calls Hcur Htype Hid.
  assert (Hrender :
    forall colorStr,
      family_render cur (p0 :: rest) colorStr
      = _applyOmbreLipOutline (p0 :: rest) colorStr (size (preset cur))
          (opacity (preset cur)) (spacing (preset cur))
          (pressureSensitivity (preset cur))).
  { intros colorStr. unfold family_render, _applySpecializedBrush.
    rewrite Htype, Hid. reflexivity. }
  assert (Hlen : forall prev l, List.length (segments prev l) = List.length l).
  { intros prev l. revert prev.
    induction l as [| p l IH]; intros prev; cbn [segments List.length];
      [reflexivity | rewrite IH; reflexivity]. }
  destruct rest as [| p1 rest].
  - destruct (applyBrushStroke_marked this cur c0 p0 [] color random calls
                (mkWorld (with_state
                            (set_globalCompositeOperation "source-over")
                            (save c0)) random calls)
                [] Hcur) as (c' & Happly & Hmarks & _).
    + rewrite Hrender. reflexivity.
    + apply marked_refl.
    + exists c', []. split; [exact Happly |]. split; [exact Hmarks |].
      split; [constructor | reflexivity].
  - destruct (_applyOmbreLipOutline_run p0 p1 rest
                (Rgba (nth_error color 0) (nth_error color 1)
                      (nth_error color 2) 1)
                (size (preset cur)) (opacity (preset cur))
                (spacing (preset cur)) (pressureSensitivity (preset cur))
                (mkWorld (with_state
                            (set_globalCompositeOperation "source-over")
                            (save c0)) random calls))
      as (w' & ms & Hrun & Hmarked & Hsegs).
    destruct (applyBrushStroke_marked this cur c0 p0 (p1 :: rest) color
                random calls w' ms Hcur) as (c' & Happly & Hmarks & _);
      [rewrite Hrender; exact Hrun | exact Hmarked |].
    exists c', ms. split; [exact Happly |]. split; [exact Hmarks |].
    split; [exact Hsegs |].
    rewrite <- (Forall2_length Hsegs). apply Hlen.
Qed.

Lemma ombre_strokes_each_segment_witness :
  exists c' ms,
    applyBrushStroke
      (snd (selectBrush (snd (setUserSubscription constructor "pro"))
                        "advanced" "ombreLipOutline"))
      (Some Sample.fresh_canvas) (Some Sample.zigzag) (Some Sample.pigment)
      Sample.zeros 0 = (true, Some c', 0%nat)
    /\ marks c' = marks Sample.fresh_canvas ++ ms
    /\ List.length ms = 3%nat.
Proof.
  destruct (ombre_strokes_each_segment
              (snd (selectBrush (snd (setUserSubscription constructor "pro"))
                                "advanced" "ombreLipOutline"))
              (mkCurrent ombreLipOutline "ombreLipOutline" "advanced")
              Sample.fresh_canvas (mkPoint 0 0 (Some 1))
              [mkPoint 14 0 (Some 1); mkPoint 20 0 (Some 1);
               mkPoint 5 0 (Some 1)]
              Sample.pigment Sample.zeros 0 eq_refl eq_refl eq_refl)
    as (c' & ms & Happly & Hmarks & _ & Hlen).
  exists c', ms. split; [exact Happly |]. split; [exact Hmarks | exact Hlen].
Defined.

(** The width loop of the tapered family writes nothing but the line
    width and the path. *)
Lemma _applyMicrobladeNatural_loop_keeps
  (size pressureSensitivity totalLength : R) (rest : list Point) :
  forall (currentLength : R) (prevPoint : Point) (w : World),
  exists w',
    _applyMicrobladeNatural_loop size pressureSensitivity totalLength
      currentLength prevPoint rest w = (Normal tt, w')
    /\ strokeStyle (state (canvas w')) = strokeStyle (state (canvas w))
    /\ lineCap (state (canvas w')) = lineCap (state (canvas w))
    /\ lineJoin (state (canvas w')) = lineJoin (state (canvas w)).
Proof.
  induction rest as [| p rest IH]; intros currentLength prevPoint w.
  - exists w. auto.
  - cbn [_applyMicrobladeNatural_loop].
    unfold bind at 1. unfold set at 1. unfold on_ctx at 1.
    unfold bind at 1. unfold on_ctx at 1.
    cbn [canvas stream calls].
    match goal with
    | |- context [_applyMicrobladeNatural_loop _ _ _ ?c ?pp rest ?w0] =>
        destruct (IH c pp w0) as (w' & Hrun & Hstyle & Hcap & Hjoin)
    end.
    exists w'. split; [exact Hrun |].
    cbn [canvas add_cmd with_state state strokeStyle lineCap lineJoin
         set_lineWidth] in *.
    auto.
Qed.

Lemma _applyMicrobladeNatural_style (p0 p1 : Point) (rest : list Point)
  (colorStr : Style) (size opacity spacing pressureSensitivity : R)
  (w : World) :
  exists w' st,
    _applyMicrobladeNatural (p0 :: p1 :: rest) colorStr size opacity spacing
                            pressureSensitivity w = (Normal tt, w')
    /\ marked w w' [Stroked (plain_path (p0 :: p1 :: rest)) st]
    /\ globalAlpha st = opacity
    /\ strokeStyle st = colorStr
    /\ lineCap st = "round"
    /\ lineJoin st = "round".
Proof.
  unfold _applyMicrobladeNatural, bind, set, on_ctx.
  cbn [canvas stream calls].
  match goal with
  | |- context [_applyMicrobladeNatural_loop _ _ ?t ?c ?pp ?l ?w0] =>
      destruct (_applyMicrobladeNatural_loop_frame size pressureSensitivity
                  t l c pp w0)
        as (w1 & Hrun & Hpath & Halpha & Hm & Hs & Hr & Hc);
      destruct (_applyMicrobladeNatural_loop_keeps size pressureSensitivity
                  t l c pp w0) as (w2 & Hrun2 & Hstyle & Hcap & Hjoin)
  end.
  rewrite Hrun.
  assert (w2 = w1) by congruence. subst w2.
  eexists. exists (state (canvas w1)).
  split; [reflexivity |].
  cbn [canvas stream calls add_cmd beginPath with_state path state saved
       marks globalAlpha strokeStyle lineCap lineJoin set_strokeStyle
       set_lineCap set_lineJoin set_globalAlpha] in *.
  split.
  - unfold marked. cbn [canvas stroke marks saved stream calls].
    rewrite Hpath, Hm, app_nil_r. cbn [app plain_path]. auto.
  - auto.
Qed.

(** X13. The tapered family strokes its path once, after the loop: for a
    stroke of two samples or more it leaves a single stroked mark, the path
    through all the samples, with the preset opacity as alpha, the given
    colour and round caps and joins, so that the whole stroke is drawn in
    one drawing state, whatever widths the loop wrote on the way; a
    single-sample stroke is a no-op that still returns true.  It draws no
    random number. *)
Theorem microblade_strokes_once :
  forall (this : t) (cur : CurrentBrush) (c0 : Ctx) (p0 : Point)
         (rest : list Point) (color : list R) (random : nat -> R)
         (calls : nat),
    currentBrush this = Some cur ->
    type (preset cur) = "specialized" ->
    id cur = "microbladeNatural" ->
    exists c' ms,
      applyBrushStroke this (Some c0) (Some (p0 :: rest)) (Some color)
                       random calls = (true, Some c', calls)
      /\ marks c' = marks c0 ++ ms
      /\ (rest = [] -> ms = [])
      /\ (rest <> [] ->
          exists st,
            ms = [Stroked (plain_path (p0 :: rest)) st]
            /\ globalAlpha st = opacity (preset cur)
            /\ strokeStyle st
               = Rgba (nth_error color 0) (nth_error color 1)
                      (nth_error color 2) 1
            /\ lineCap st = "round"
            /\ lineJoin st = "round").
Proof.
  intros this cur c0 p0 rest color random calls Hcur Htype Hid.
  assert (Hrender :
    forall colorStr,
      family_render cur (p0 :: rest) colorStr
      = _applyMicrobladeNatural (p0 :: rest) colorStr (size (preset cur))
          (opacity (preset cur)) (spacing (preset cur))
          (pressureSensitivity (preset cur))).
  { intros colorStr. unfold family_render, _applySpecializedBrush.
    rewrite Htype, Hid. reflexivity. }
  destruct rest as [| p1 rest].
  - destruct (applyBrushStroke_marked this cur c0 p0 [] color random calls
                (mkWorld (with_state
                            (set_globalCompositeOperation "source-over")
                            (save c0)) random calls)
                [] Hcur) as (c' & Happly & Hmarks & _).
    + rewrite Hrender. reflexivity.
    + apply marked_refl.
    + exists c', []. split; [exact Happly |]. split; [exact Hmarks |].
      split; [reflexivity |]. intros H. contradiction.
  - destruct (_applyMicrobladeNatural_style p0 p1 rest
                (Rgba (nth_error color 0) (nth_error color 1)
                      (nth_error color 2) 1)
                (size (preset cur)) (opacity (preset cur))
                (spacing (preset cur)) (pressureSensitivity (preset cur))
                (mkWorld (with_state
                            (set_globalCompositeOperation "source-over")
                            (save c0)) random calls))
      as (w' & st & Hrun & Hmarked & Halpha & Hstyle & Hcap & Hjoin).
    destruct (applyBrushStroke_marked this cur c0 p0 (p1 :: rest) color
                random calls w' [Stroked (plain_path (p0 :: p1 :: rest)) st]
                Hcur) as (c' & Happly & Hmarks & _);
      [rewrite Hrender; exact Hrun | exact Hmarked |].
    exists c', [Stroked (plain_path (p0 :: p1 :: rest)) st].
    split; [exact Happly |]. split; [exact Hmarks |].
    split; [discriminate |]. intros _.
    exists st. split; [reflexivity |]. auto.
Qed.

Lemma microblade_strokes_once_witness :
  exists c' st,
    applyBrushStroke
      (snd (selectBrush (snd (setUserSubscription constructor "pro"))
                        "advanced" "microbladeNatural"))
      (Some Sample.fresh_canvas) (Some (Sample.origin :: Sample.two_more))
      (Some Sample.pigment) Sample.zeros 0 = (true, Some c', 0%nat)
    /\ marks c'
       = [Stroked [MoveTo 0 0; LineTo 10 0; LineTo 20 0] st]
    /\ globalAlpha st = 0.95
    /\ strokeStyle st = Rgba (Some 121) (Some 85) (Some 61) 1
    /\ lineCap st = "round"
    /\ lineJoin st = "round".
Proof.
  destruct (microblade_strokes_once
              (snd (selectBrush (snd (setUserSubscription constructor "pro"))
                                "advanced" "microbladeNatural"))
              (mkCurrent microbladeNatural "microbladeNatural" "advanced")
              Sample.fresh_canvas Sample.origin Sample.two_more
              Sample.pigment Sample.zeros 0 eq_refl eq_refl eq_refl)
    as (c' & ms & Happly & Hmarks & _ & Hpath).
  destruct Hpath as (st & Hms & Halpha & Hstyle & Hcap & Hjoin);
    [discriminate |].
  exists c', st. split; [exact Happly |].
  split; [rewrite Hmarks, Hms; reflexivity |].
  split; [exact Halpha |].
  split; [exact Hstyle |].
  split; [exact Hcap | exact Hjoin].
Defined.

(** ** The dab families *)



(** X15. Jitter is drawn afresh for every stamp: a Shader render draws two
    random numbers per stamped sample and none for the initial dab, a
    triple-point render draws one for the initial stamp and three per
    stamped sample; neither draws more than that. *)
Theorem stamping_random_draws :
  forall (p0 : Point) (rest : list Point) (colorStr : Style)
         (size opacity spacing scatter pressureSensitivity : R) (w : World),
    let stamps := List.length (stamped (size * spacing) p0 rest) in
    calls (snd (_applyShaderBrush (p0 :: rest) colorStr size opacity spacing
                                  scatter pressureSensitivity w))
    = (calls w + 2 * stamps)%nat
    /\ calls (snd (_apply3RSShader (p0 :: rest) colorStr size opacity spacing
                                   scatter pressureSensitivity w))
       = (calls w + 1 + 3 * stamps)%nat
    /\ (stamps <= List.length rest)%nat.
Proof.
  intros p0 rest colorStr size opacity spacing scatter pressureSensitivity w
         stamps.
  destruct (_applyShaderBrush_drew p0 rest colorStr size opacity spacing
              scatter pressureSensitivity w)
    as (w1 & Hrun1 & _ & _ & _ & _ & Hc1).
  destruct (_apply3RSShader_drew p0 rest colorStr size opacity spacing
              scatter pressureSensitivity w)
    as (w2 & Hrun2 & _ & _ & _ & _ & Hc2).
  rewrite Hrun1, Hrun2. cbn [snd]. fold stamps in Hc1, Hc2.
  split; [exact Hc1 |]. split; [lia |].
  apply stamped_length.
Qed.

(** ** Landmark geometry *)

(** X17. [distanceToLine] never divides by zero and is never negative: for
    a segment whose two ends coincide it is the distance to that point,
    and for a point that sits on the first end of the segment, of whatever
    length, it is 0. *)
Theorem distanceToLine_degenerate_segment :
  forall (point : FacialRecognition.Vec2) (line : FacialRecognition.Line),
    let px := FacialRecognition.vx point in
    let py := FacialRecognition.vy point in
    let d := FacialRecognition.distanceToLine point line in
    0 <= d
    /\ (FacialRecognition.x1 line = FacialRecognition.x2 line ->
        FacialRecognition.y1 line = FacialRecognition.y2 line ->
        d = Js.Math_sqrt
              ((px - FacialRecognition.x1 line)
               * (px - FacialRecognition.x1 line)
               + (py - FacialRecognition.y1 line)
                 * (py - FacialRecognition.y1 line)))
    /\ (px = FacialRecognition.x1 line ->
        py = FacialRecognition.y1 line ->
        d = 0).
Proof.
  intros [px py] [x1 y1 x2 y2].
  cbn [FacialRecognition.vx FacialRecognition.vy FacialRecognition.x1
       FacialRecognition.y1 FacialRecognition.x2 FacialRecognition.y2].
  cbv zeta.
  unfold FacialRecognition.distanceToLine, Js.Math_sqrt.
  cbn [FacialRecognition.vx FacialRecognition.vy FacialRecognition.x1
       FacialRecognition.y1 FacialRecognition.x2 FacialRecognition.y2].
  set (A := px - x1). set (B := py - y1).
  set (C := x2 - x1). set (D := y2 - y1).
  unfold Js.neqb.
  destruct (Req_dec_T (C * C + D * D) 0) as [Hzero | Hnonzero].
  - (* the two ends coincide: param = -1 *)
    unfold Js.ltb. destruct (Rlt_dec (-1) 0) as [_ | Hcontra]; [| lra].
    fold A B.
    split; [apply sqrt_pos |]. split; [reflexivity |].
    intros Hx Hy.
    replace (A * A + B * B) with 0 by (unfold A, B; rewrite Hx, Hy; ring).
    apply sqrt_0.
  - set (t := (A * C + B * D) / (C * C + D * D)).
    unfold Js.ltb, Js.gtb.
    destruct (Rlt_dec t 0) as [Hneg | Hnonneg].
    + fold A B.
      split; [apply sqrt_pos |]. split; [reflexivity |].
      intros Hx Hy.
      replace (A * A + B * B) with 0 by (unfold A, B; rewrite Hx, Hy; ring).
      apply sqrt_0.
    + destruct (Rgt_dec t 1) as [Hbig | Hsmall].
      * split; [apply sqrt_pos |]. split.
        -- intros H1 H2. exfalso. unfold C, D in Hnonzero.
           rewrite H1, H2 in Hnonzero. apply Hnonzero. ring.
        -- intros Hx Hy. exfalso.
           assert (Ht : t = 0).
           { unfold t, A, B. rewrite Hx, Hy.
             unfold Rdiv. ring. }
           lra.
      * split; [apply sqrt_pos |]. split.
        -- intros H1 H2. exfalso. unfold C, D in Hnonzero.
           rewrite H1, H2 in Hnonzero. apply Hnonzero. ring.
        -- intros Hx Hy.
           assert (Ht : t = 0).
           { unfold t, A, B. rewrite Hx, Hy.
             unfold Rdiv. ring. }
           rewrite Ht, Hx, Hy.
           replace ((x1 - (x1 + 0 * C)) * (x1 - (x1 + 0 * C))
                    + (y1 - (y1 + 0 * D)) * (y1 - (y1 + 0 * D)))
             with 0 by ring.
           apply sqrt_0.
Qed.

(** ** Landmark extraction *)

Lemma extract_group_length (keypoints : list FacialRecognition.Keypoint)
  (indices : list nat) :
  (List.length (FacialRecognition.extract_group keypoints indices)
   <= List.length indices)%nat
  /\ (Forall (fun index => (index < List.length keypoints)%nat) indices ->
      List.length (FacialRecognition.extract_group keypoints indices)
      = List.length indices).
Proof.
  unfold FacialRecognition.extract_group.
  induction indices as [| index indices [IHle IHeq]];
    cbn [map FacialRecognition.without_null List.length].
  - split; [lia | reflexivity].
  - destruct (nth_error keypoints index) as [point |] eqn:Enth;
      cbn [option_map FacialRecognition.without_null List.length].
    + split; [lia |]. intros Hall. rewrite IHeq; [reflexivity |].
      exact (Forall_inv_tail Hall).
    + split; [lia |]. intros Hall. exfalso.
      pose proof (Forall_inv Hall) as Hlt. cbn beta in Hlt.
      apply nth_error_None in Enth. lia.
Qed.

Lemma reference_present (keypoints : list FacialRecognition.Keypoint)
  (index : nat) :
  option_map FacialRecognition.landmark_of (nth_error keypoints index)
  <> None
  <-> (index < List.length keypoints)%nat.
Proof.
  rewrite <- nth_error_Some.
  destruct (nth_error keypoints index); cbn [option_map]; split; congruence.
Qed.

(** X19. [extractPMULandmarks] never fails on a short keypoint set: a
    group holds at most as many landmarks as it has indices, and all of
    them once the set has more than 454 keypoints; each symmetry reference
    is present exactly when the set reaches its index (151, 1, 199, 468,
    473); and with 199 keypoints or fewer the mid-chin is missing, so the
    score of the extracted landmarks is the default 80. *)
Theorem extractPMULandmarks_by_mesh_size :
  forall face : FacialRecognition.Face,
    let n := List.length (FacialRecognition.keypoints face) in
    let l := FacialRecognition.extractPMULandmarks face in
    ((List.length (FacialRecognition.browLeft l) <= 10)%nat
     /\ (List.length (FacialRecognition.browRight l) <= 10)%nat
     /\ (List.length (FacialRecognition.lipOuter l) <= 20)%nat
     /\ (List.length (FacialRecognition.lipInner l) <= 20)%nat
     /\ (List.length (FacialRecognition.faceContour l) <= 36)%nat)
    /\ ((454 < n)%nat ->
        List.length (FacialRecognition.browLeft l) = 10%nat
        /\ List.length (FacialRecognition.browRight l) = 10%nat
        /\ List.length (FacialRecognition.lipOuter l) = 20%nat
        /\ List.length (FacialRecognition.lipInner l) = 20%nat
        /\ List.length (FacialRecognition.faceContour l) = 36%nat)
    /\ (exists refs,
           FacialRecognition.symmetryReferences l = Some refs
           /\ (FacialRecognition.midForehead refs <> None <-> (151 < n)%nat)
           /\ (FacialRecognition.noseTip refs <> None <-> (1 < n)%nat)
           /\ (FacialRecognition.midChin refs <> None <-> (199 < n)%nat)
           /\ (FacialRecognition.leftEyeCenter refs <> None
               <-> (468 < n)%nat)
           /\ (FacialRecognition.rightEyeCenter refs <> None
               <-> (473 < n)%nat))
    /\ ((n <= 199)%nat -> FacialRecognition.calculateSymmetryScore l = 80).
Proof.
  intros [keypoints].
  cbn [FacialRecognition.keypoints]. cbv zeta.
  unfold FacialRecognition.extractPMULandmarks.
  cbn [FacialRecognition.keypoints FacialRecognition.browLeft
       FacialRecognition.browRight FacialRecognition.lipOuter
       FacialRecognition.lipInner FacialRecognition.faceContour
       FacialRecognition.symmetryReferences].
  split; [| split; [| split]].
  - repeat split;
      match goal with
      | |- (List.length (FacialRecognition.extract_group _ ?idx) <= _)%nat =>
          exact (proj1 (extract_group_length keypoints idx))
      end.
  - intros Hn.
    repeat split;
      match goal with
      | |- List.length (FacialRecognition.extract_group _ ?idx) = _ =>
          rewrite (proj2 (extract_group_length keypoints idx));
          [reflexivity | repeat constructor; lia]
      end.
  - eexists. split; [reflexivity |].
    cbn [FacialRecognition.midForehead FacialRecognition.noseTip
         FacialRecognition.midChin FacialRecognition.leftEyeCenter
         FacialRecognition.rightEyeCenter].
    repeat split; apply reference_present.
  - intros Hn.
    unfold FacialRecognition.calculateSymmetryScore,
      FacialRecognition.calculateSymmetryScore_try.
    cbn [FacialRecognition.symmetryReferences FacialRecognition.midForehead
         FacialRecognition.noseTip FacialRecognition.midChin].
    assert (Hchin : nth_error keypoints
                      FacialRecognition.symmetryPoints_midChin = None)
      by (apply nth_error_None; exact Hn).
    rewrite Hchin. cbn [option_map].
    destruct (option_map _ _); [destruct (option_map _ _) |]; reflexivity.
Qed.

(** ** The symmetry guide *)

(** X20. [drawSymmetryGuide] returns true exactly when it is given
    landmarks and a canvas with a 2D context and the landmarks have their
    symmetry references with both the mid-forehead and the mid-chin; a call
    that returns false has left the context as it was. *)
Theorem drawSymmetryGuide_true_iff_inputs_present :
  forall (landmarks : option FacialRecognition.Landmarks)
         (canvas : option FacialRecognition.CanvasElement),
    let result := FacialRecognition.drawSymmetryGuide landmarks canvas in
    (fst result = true
     <-> exists l element ctx refs forehead chin,
           landmarks = Some l /\ canvas = Some element
           /\ FacialRecognition.context2d element = Some ctx
           /\ FacialRecognition.symmetryReferences l = Some refs
           /\ FacialRecognition.midForehead refs = Some forehead
           /\ FacialRecognition.midChin refs = Some chin)
    /\ (fst result = false ->
        option_map FacialRecognition.context2d (snd result)
        = option_map FacialRecognition.context2d canvas).
Proof.
  intros landmarks canvas result. subst result.
  unfold FacialRecognition.drawSymmetryGuide.
  destruct landmarks as [l |].
  2:{ split; [| reflexivity].
      split; [discriminate |].
      intros (? & ? & ? & ? & ? & ? & H & _). discriminate. }
  destruct canvas as [element |].
  2:{ split; [| reflexivity].
      split; [discriminate |].
      intros (? & ? & ? & ? & ? & ? & _ & H & _). discriminate. }
  destruct (FacialRecognition.context2d element) as [ctx |] eqn:Ectx.
  2:{ split; [| reflexivity].
      split; [discriminate |].
      intros (? & ? & ? & ? & ? & ? & _ & H & H' & _).
      injection H as <-. congruence. }
  unfold FacialRecognition.drawSymmetryGuide_try.
  destruct (FacialRecognition.symmetryReferences l) as [refs |] eqn:Erefs.
  2:{ cbn [fst snd option_map FacialRecognition.context2d].
      split; [| intros _; rewrite Ectx; reflexivity].
      split; [discriminate |].
      intros (? & ? & ? & ? & ? & ? & H & _ & _ & H' & _).
      injection H as <-. congruence. }
  destruct (FacialRecognition.midForehead refs) as [forehead |] eqn:Eforehead.
  2:{ cbn [fst snd option_map FacialRecognition.context2d].
      split; [| intros _; rewrite Ectx; reflexivity].
      split; [discriminate |].
      intros (? & ? & ? & ? & ? & ? & H & _ & _ & H' & H'' & _).
      injection H as <-. congruence. }
  destruct (FacialRecognition.midChin refs) as [chin |] eqn:Echin.
  2:{ cbn [fst snd option_map FacialRecognition.context2d].
      split; [| intros _; rewrite Ectx; reflexivity].
      split; [discriminate |].
      intros (? & ? & ? & ? & ? & ? & H & _ & _ & H' & _ & H'').
      injection H as <-. congruence. }
  cbv zeta. cbn [fst snd].
  split; [| discriminate].
  split; [| reflexivity].
  intros _. exists l, element, ctx, refs, forehead, chin. auto 10.
Qed.

Lemma drawHorizontalGuide_effect (canvas_width gy : R) (c : Ctx) :
  lineWidth (state c) = 1 ->
  let c' := FacialRecognition.drawHorizontalGuide canvas_width gy [5; 5] c in
  exists m,
    marks c' = marks c ++ [m]
    /\ guide_mark canvas_width gy m
    /\ saved c' = saved c
    /\ globalAlpha (state c') = globalAlpha (state c)
    /\ lineWidth (state c') = 1
    /\ lineDash (state c') = [].
Proof.
  intros Hwidth.
  unfold FacialRecognition.drawHorizontalGuide,
    FacialRecognition.setLineDash.
  cbv zeta.
  cbn [marks saved state path stroke with_state add_cmd beginPath
       globalAlpha lineWidth lineDash set_strokeStyle app].
  eexists. split; [reflexivity |].
  split.
  - eexists. split; [reflexivity |].
    cbn [strokeStyle lineWidth lineDash]. auto.
  - auto.
Qed.

Lemma guide_if_effect (b : bool) (canvas_width gy : R) (c : Ctx) :
  lineWidth (state c) = 1 ->
  let c' :=
    if b then FacialRecognition.drawHorizontalGuide canvas_width gy [5; 5] c
    else c in
  exists ms,
    marks c' = marks c ++ ms
    /\ Forall2 (guide_mark canvas_width) (if b then [gy] else []) ms
    /\ saved c' = saved c
    /\ globalAlpha (state c') = globalAlpha (state c)
    /\ lineWidth (state c') = 1
    /\ (b = true \/ lineDash (state c) = [] -> lineDash (state c') = []).
Proof.
  intros Hwidth. destruct b; cbv zeta.
  - destruct (drawHorizontalGuide_effect canvas_width gy c Hwidth)
      as (m & Hm & Hguide & Hs & Ha & Hw & Hl).
    exists [m]. split; [exact Hm |].
    split; [constructor; [exact Hguide | constructor] |].
    auto.
  - exists []. split; [symmetry; apply app_nil_r |].
    split; [constructor |].
    split; [reflexivity |]. split; [reflexivity |].
    split; [exact Hwidth |].
    intros [H | H]; [discriminate | exact H].
Qed.

Lemma drawLandmarks_effect (points : list FacialRecognition.Landmark)
  (color : string) :
  forall c : Ctx,
    let c' := FacialRecognition.drawLandmarks points color c in
    exists ms,
      marks c' = marks c ++ ms
      /\ Forall2 (dot_mark color (globalAlpha (state c))) points ms
      /\ saved c' = saved c
      /\ globalAlpha (state c') = globalAlpha (state c)
      /\ lineWidth (state c') = lineWidth (state c)
      /\ lineDash (state c') = lineDash (state c).
Proof.
  unfold FacialRecognition.drawLandmarks.
  induction points as [| p points IH]; intros c; cbv zeta in *.
  - cbn [fold_left]. exists []. split; [symmetry; apply app_nil_r |].
    split; [constructor |]. auto.
  - cbn [fold_left].
    match goal with
    | |- context [fold_left _ points ?c1] =>
        destruct (IH c1) as (ms & Hm & Hdots & Hs & Ha & Hw & Hl)
    end.
    rewrite Hm, Hs, Ha, Hw, Hl.
    cbn [marks saved state path fill with_state add_cmd beginPath
         globalAlpha lineWidth lineDash set_fillStyle app] in *.
    eexists (_ :: ms). split; [rewrite <- app_assoc; reflexivity |].
    split; [| auto].
    constructor; [| exact Hdots].
    eexists. split; [reflexivity |].
    cbn [fillStyle globalAlpha]. auto.
Qed.

(** X21. A symmetry guide that is drawn replaces the overlay.  Whatever
    was on the canvas is erased; the marks it then holds are, in this
    order: the midline, stroked from the mid-forehead to the mid-chin with
    line width 1; a dashed horizontal guide across the whole canvas at the
    mean height of the two brow centroids if both brows have landmarks, one
    at the height of the nose tip if the face has one, and one at the
    height of the centroid of the outer lip if it has landmarks; a filled
    dot of radius 2 on every landmark of the left brow, of the right brow
    (both green) and of the outer lip (pink).  The stack of saved states is
    untouched, the line width is left at 1, and the dash pattern is left
    empty as soon as one guide was drawn. *)
Theorem drawSymmetryGuide_draws_overlay :
  forall (l : FacialRecognition.Landmarks)
         (element : FacialRecognition.CanvasElement) (ctx : Ctx)
         (refs : FacialRecognition.SymmetryReferences)
         (forehead chin : FacialRecognition.Landmark),
    FacialRecognition.context2d element = Some ctx ->
    FacialRecognition.symmetryReferences l = Some refs ->
    FacialRecognition.midForehead refs = Some forehead ->
    FacialRecognition.midChin refs = Some chin ->
    exists ctx' midline guides left right lip,
      FacialRecognition.drawSymmetryGuide (Some l) (Some element)
      = (true,
         Some (FacialRecognition.mkCanvasElement
                 (Some ctx') (FacialRecognition.width element)
                 (FacialRecognition.height element)))
      /\ marks ctx' = midline :: guides ++ left ++ right ++ lip
      /\ midline_mark forehead chin midline
      /\ Forall2 (guide_mark (FacialRecognition.width element))
                 (guide_heights l refs) guides
      /\ Forall2 (dot_mark "rgba(0, 255, 0, 0.7)" (globalAlpha (state ctx)))
                 (FacialRecognition.browLeft l) left
      /\ Forall2 (dot_mark "rgba(0, 255, 0, 0.7)" (globalAlpha (state ctx)))
                 (FacialRecognition.browRight l) right
      /\ Forall2 (dot_mark "rgba(255, 0, 128, 0.7)"
                           (globalAlpha (state ctx)))
                 (FacialRecognition.lipOuter l) lip
      /\ saved ctx' = saved ctx
      /\ lineWidth (state ctx') = 1
      /\ (guide_heights l refs <> [] -> lineDash (state ctx') = []).
Proof.
  intros l element ctx refs forehead chin Hctx Hrefs Hforehead Hchin.
  unfold FacialRecognition.drawSymmetryGuide,
    FacialRecognition.drawSymmetryGuide_try.
  rewrite Hctx, Hrefs, Hforehead, Hchin. cbv zeta.
  set (c1 := stroke _).
  assert (H1 : exists midline,
               marks c1 = [midline]
               /\ midline_mark forehead chin midline
               /\ saved c1 = saved ctx
               /\ globalAlpha (state c1) = globalAlpha (state ctx)
               /\ lineWidth (state c1) = 1).
  { subst c1. unfold FacialRecognition.clearRect_all.
    cbn [marks saved state path stroke with_state add_cmd beginPath app
         globalAlpha lineWidth set_lineWidth set_strokeStyle].
    eexists. split; [reflexivity |].
    split; [| auto].
    eexists. split; [reflexivity |].
    cbn [strokeStyle lineWidth]. auto. }
  clearbody c1. destruct H1 as (midline & Hm1 & Hmid & Hs1 & Ha1 & Hw1).
  unfold guide_heights.
  set (b1 := (0 <? List.length (FacialRecognition.browLeft l))%nat
             && (0 <? List.length (FacialRecognition.browRight l))%nat)
    in *.
  set (b3 := (0 <? List.length (FacialRecognition.lipOuter l))%nat) in *.
  set (browY := (FacialRecognition.vy
                   (FacialRecognition.calculateCentroid
                      (FacialRecognition.browLeft l))
                 + FacialRecognition.vy
                     (FacialRecognition.calculateCentroid
                        (FacialRecognition.browRight l))) / 2) in *.
  set (lipY := FacialRecognition.vy
                 (FacialRecognition.calculateCentroid
                    (FacialRecognition.lipOuter l))) in *.
  set (c2 := if b1 then _ else c1).
  destruct (guide_if_effect b1 (FacialRecognition.width element) browY c1
              Hw1) as (ms2 & Hm2 & Hg2 & Hs2 & Ha2 & Hw2 & Hl2).
  fold c2 in Hm2, Hs2, Ha2, Hw2, Hl2. clearbody c2.
  set (c3 := match FacialRecognition.noseTip refs with
             | Some nose => _
             | None => c2
             end).
  assert (H3 : exists ms3,
               marks c3 = marks c2 ++ ms3
               /\ Forall2 (guide_mark (FacialRecognition.width element))
                    match FacialRecognition.noseTip refs with
                    | Some nose => [FacialRecognition.y nose]
                    | None => []
                    end ms3
               /\ saved c3 = saved c2
               /\ globalAlpha (state c3) = globalAlpha (state c2)
               /\ lineWidth (state c3) = 1
               /\ (FacialRecognition.noseTip refs <> None
                   \/ lineDash (state c2) = [] ->
                   lineDash (state c3) = [])).
  { subst c3. destruct (FacialRecognition.noseTip refs) as [nose |].
    - destruct (guide_if_effect true (FacialRecognition.width element)
                  (FacialRecognition.y nose) c2 Hw2)
        as (ms3 & Hm3 & Hg3 & Hs3 & Ha3 & Hw3 & Hl3).
      exists ms3. repeat (split; [assumption |]).
      intros _. apply Hl3. left. reflexivity.
    - destruct (guide_if_effect false (FacialRecognition.width element) 0
                  c2 Hw2) as (ms3 & Hm3 & Hg3 & Hs3 & Ha3 & Hw3 & Hl3).
      exists ms3. repeat (split; [assumption |]).
      intros [H | H]; [contradiction | apply Hl3; right; exact H]. }
  clearbody c3.
  destruct H3 as (ms3 & Hm3 & Hg3 & Hs3 & Ha3 & Hw3 & Hl3).
  set (c4 := if b3 then _ else c3).
  destruct (guide_if_effect b3 (FacialRecognition.width element) lipY c3
              Hw3) as (ms4 & Hm4 & Hg4 & Hs4 & Ha4 & Hw4 & Hl4).
  fold c4 in Hm4, Hs4, Ha4, Hw4, Hl4. clearbody c4.
  destruct (drawLandmarks_effect (FacialRecognition.browLeft l)
              "rgba(0, 255, 0, 0.7)" c4)
    as (ms5 & Hm5 & Hd5 & Hs5 & Ha5 & Hw5 & Hl5).
  set (c5 := FacialRecognition.drawLandmarks
               (FacialRecognition.browLeft l) "rgba(0, 255, 0, 0.7)" c4)
    in *.
  clearbody c5.
  destruct (drawLandmarks_effect (FacialRecognition.browRight l)
              "rgba(0, 255, 0, 0.7)" c5)
    as (ms6 & Hm6 & Hd6 & Hs6 & Ha6 & Hw6 & Hl6).
  set (c6 := FacialRecognition.drawLandmarks
               (FacialRecognition.browRight l) "rgba(0, 255, 0, 0.7)" c5)
    in *.
  clearbody c6.
  destruct (drawLandmarks_effect (FacialRecognition.lipOuter l)
              "rgba(255, 0, 128, 0.7)" c6)
    as (ms7 & Hm7 & Hd7 & Hs7 & Ha7 & Hw7 & Hl7).
  set (c7 := FacialRecognition.drawLandmarks
               (FacialRecognition.lipOuter l) "rgba(255, 0, 128, 0.7)" c6)
    in *.
  clearbody c7.
  assert (Ha4' : globalAlpha (state c4) = globalAlpha (state ctx))
    by congruence.
  assert (Ha5' : globalAlpha (state c5) = globalAlpha (state ctx))
    by congruence.
  assert (Ha6' : globalAlpha (state c6) = globalAlpha (state ctx))
    by congruence.
  rewrite Ha4' in Hd5. rewrite Ha5' in Hd6. rewrite Ha6' in Hd7.
  exists c7, midline, (ms2 ++ ms3 ++ ms4), ms5, ms6, ms7.
  split; [reflexivity |].
  split.
  { rewrite Hm7, Hm6, Hm5, Hm4, Hm3, Hm2, Hm1.
    cbn [app]. rewrite <- !app_assoc. reflexivity. }
  split; [exact Hmid |].
  split.
  { apply Forall2_app; [exact Hg2 |].
    apply Forall2_app; [exact Hg3 | exact Hg4]. }
  split; [exact Hd5 |]. split; [exact Hd6 |]. split; [exact Hd7 |].
  split; [congruence |].
  split; [congruence |].
  intros Hguides. rewrite Hl7, Hl6, Hl5.
  destruct b3; [apply Hl4; left; reflexivity |].
  apply Hl4. right.
  destruct (FacialRecognition.noseTip refs) as [nose |] eqn:Enose;
    [apply Hl3; left; discriminate |].
  apply Hl3. right.
  destruct b1; [apply Hl2; left; reflexivity |].
  exfalso. apply Hguides. reflexivity.
Qed.

Lemma drawSymmetryGuide_draws_overlay_witness :
  exists ctx' midline guides left right lip,
    FacialRecognition.drawSymmetryGuide
      (Some Sample.landmarks_with_nose) (Some Sample.overlay)
    = (true,
       Some (FacialRecognition.mkCanvasElement (Some ctx') 10 10))
    /\ marks ctx' = midline :: guides ++ left ++ right ++ lip
    /\ midline_mark (FacialRecognition.mkLandmark 5 0 0)
                    (FacialRecognition.mkLandmark 5 9 0) midline
    /\ Forall2 (guide_mark 10)
               (guide_heights Sample.landmarks_with_nose
                              Sample.refs_with_nose)
               guides
    /\ Forall2 (dot_mark "rgba(0, 255, 0, 0.7)" 1)
               [FacialRecognition.mkLandmark 3 2 0] left
    /\ Forall2 (dot_mark "rgba(0, 255, 0, 0.7)" 1)
               [FacialRecognition.mkLandmark 7 2 0] right
    /\ Forall2 (dot_mark "rgba(255, 0, 128, 0.7)" 1)
               [FacialRecognition.mkLandmark 4 7 0;
                FacialRecognition.mkLandmark 6 7 0] lip
    /\ saved ctx' = []
    /\ lineWidth (state ctx') = 1
    /\ (guide_heights Sample.landmarks_with_nose Sample.refs_with_nose
        <> [] ->
        lineDash (state ctx') = []).
Proof.
  exact (drawSymmetryGuide_draws_overlay
           Sample.landmarks_with_nose Sample.overlay Sample.used_canvas
           Sample.refs_with_nose
           (FacialRecognition.mkLandmark 5 0 0)
           (FacialRecognition.mkLandmark 5 9 0)
           eq_refl eq_refl eq_refl eq_refl).
Defined.
